(** * memdebug.h: allocation tracking under malloc, realloc and free

    The repository holds two versions of the tracking header.

    - [Hash] embeds the hash-map version: [allocs] is an array of 100000
      [MapMember]s, each an inline record with an overflow chain of
      heap-allocated [MapMember]s; records carry line, function and file.
    - [Arr] embeds the array version, [memdebug.h]: [allocs] points to a
      growable array of [MemAlloc], searched linearly.

    Conventions of the embedding.  The platform is a 64-bit one: a
    pointer is its integer value, [NULL] is [0], and a pointer takes 8
    bytes.  A [size_t] is a [Z] in [0, 2^64) and every increment or decrement
    is wrapped explicitly.  Both headers are taken with their default
    switches ([MEMDEBUG] and [PRINT_MEMALLOCS] set, exit statuses 10 and
    11).  The real allocator is outside the program: each wrapper takes
    the value the real [malloc] or [realloc] hands back as an extra
    argument, and the calls made are logged in [heap_calls].  [printf]
    appends a structured line to the [stdout] component of the state,
    [exit] ends the run with an exit status. *)

From Stdlib Require Import ZArith Lia String.
From stdpp Require Import base tactics option list.

Local Open Scope Z_scope.

(** ** Machine integers and process outcomes *)

Definition SIZE_MODULUS : Z := 2 ^ 64.

(** Arithmetic on [size_t] is modulo [2^64]. *)
Definition wrap (z : Z) : Z := z mod SIZE_MODULUS.

Definition NULL : Z := 0.

Definition MEMPANIC_EXIT_STATUS : Z := 10.
Definition OOM_EXIT_STATUS : Z := 11.

(** Undefined behaviour the C code can run into. *)
Inductive fault : Type :=
| NullDeref      (* a load or store through a null pointer *)
| OutOfBounds.   (* an access outside the storage of an array *)

(** How a call ends.  [alloc_mutex] is a default, non-recursive mutex
    ([PTHREAD_MUTEX_INITIALIZER], or an SRW lock): when the thread that
    holds it locks it again, the call never comes back. *)
Inductive result (S A : Type) : Type :=
| Returned (a : A) (s : S)
| Exited (status : Z) (s : S)
| Deadlocked (s : S)
| Undefined (why : fault) (s : S).

Arguments Returned {S A} a s.
Arguments Exited {S A} status s.
Arguments Deadlocked {S A} s.
Arguments Undefined {S A} why s.

Definition M (S A : Type) : Type := S → result S A.

Definition ret {S A} (a : A) : M S A := λ s, Returned a s.

Definition bind {S A B} (m : M S A) (k : A → M S B) : M S B :=
  λ s, match m s with
       | Returned a s' => k a s'
       | Exited c s' => Exited c s'
       | Deadlocked s' => Deadlocked s'
       | Undefined w s' => Undefined w s'
       end.

Definition exit {S A} (status : Z) : M S A := λ s, Exited status s.
Definition undefined {S A} (w : fault) : M S A := λ s, Undefined w s.
Definition when {S} (b : bool) (m : M S unit) : M S unit :=
  if b then m else ret tt.

(** How a call ended, and the state it ended in. *)
Inductive ending : Type :=
| Returns
| Exits (status : Z)
| Deadlocks
| Faults (why : fault).

Definition ending_of {S A} (r : result S A) : ending :=
  match r with
  | Returned _ _ => Returns
  | Exited c _ => Exits c
  | Deadlocked _ => Deadlocks
  | Undefined w _ => Faults w
  end.

Definition final_state {S A} (r : result S A) : S :=
  match r with
  | Returned _ s | Exited _ s | Deadlocked s | Undefined _ s => s
  end.

Definition value_of {S A} (r : result S A) : option A :=
  match r with
  | Returned a _ => Some a
  | _ => None
  end.

(** Continue with [k] after a call that came back. *)
Definition lift {S A B} (r : result S A) (k : A → S → result S B) : result S B :=
  match r with
  | Returned a s => k a s
  | Exited c s => Exited c s
  | Deadlocked s => Deadlocked s
  | Undefined w s => Undefined w s
  end.

Declare Scope c_scope.
Delimit Scope c_scope with C.
Notation "'let*' x := c 'in' k" := (bind c (λ x, k))
  (at level 10, x name, c at level 100, k at level 200) : c_scope.
Notation "c ;;; k" := (bind c (λ _, k))
  (at level 100, k at level 200, right associativity) : c_scope.

(** Calls of the real allocator, in the order they happen. *)
Inductive HeapCall : Type :=
| call_malloc (n ret : Z)
| call_realloc (p n ret : Z)
| call_free (p : Z).

(** * The hash-map version *)

Module Hash.

Definition MAP_BUF_SIZE : Z := 100000.
Definition sizeof_voidp : Z := 8.
Definition sizeof_MapMember : Z := 48.
Definition PRINT_MEMALLOCS : bool := true.

(** [log_base_2] recurses on [num / 2] until it meets [1]; on [0] the C
    function never returns, which the fuel makes visible as [None]. *)
Fixpoint log_base_2 (fuel : nat) (num : Z) : option Z :=
  if num =? 1 then Some 0
  else match fuel with
       | O => None
       | S fuel' => (λ r, wrap (1 + r)) <$> log_base_2 fuel' (num / 2)
       end.

Definition ptr_hash (val : Z) : Z :=
  match log_base_2 64 (1 + sizeof_voidp) with
  | Some logsize =>
      let shifted := Z.shiftr val logsize in
      let other := wrap (Z.shiftl val (8 - logsize)) in
      let xed := Z.lxor shifted other in
      xed mod MAP_BUF_SIZE
  | None => 0
  end.

Record MemAlloc : Type := mkMemAlloc {
  ptr : Z;
  size : Z;
  line : Z;
  func : string;
  file : string
}.

(** A [MapMember] on the heap: its own address, its record, and (as the
    rest of the list it sits in) its [next] pointer. *)
Record MapNode : Type := mkMapNode {
  node_addr : Z;
  node_alloc : MemAlloc
}.

(** A [MapMember] of the global array [allocs]: the inline record and the
    chain hanging off [next] ([[]] is the null pointer). *)
Record MapMember : Type := mkMapMember {
  alloc : MemAlloc;
  next : list MapNode
}.

Inductive Out : Type :=
| out_panic (message : string) (badptr line : Z) (func file : string)
| out_oom (line : Z) (func file : string) (num_bytes : Z)
| out_heap_banner
| out_heap_ptr (ptr size : Z) (file : string) (line : Z)
| out_heap_total (total_allocated num_allocs : Z)
| out_malloc (n ptr line : Z) (func file : string)
| out_realloc (ptr n newptr line : Z) (func file : string)
| out_free (ptr line : Z) (func file : string).

Record State : Type := mkState {
  allocs : list MapMember;
  memallocs_initialized : bool;
  num_allocs : Z;
  alloc_mutex : bool;          (* true while the mutex is held *)
  stdout : list Out;
  heap_calls : list HeapCall
}.

Definition set_allocs (f : list MapMember → list MapMember) (st : State) : State :=
  mkState (f (allocs st)) (memallocs_initialized st) (num_allocs st)
          (alloc_mutex st) (stdout st) (heap_calls st).
Definition set_initialized (b : bool) (st : State) : State :=
  mkState (allocs st) b (num_allocs st) (alloc_mutex st) (stdout st) (heap_calls st).
Definition set_num_allocs (f : Z → Z) (st : State) : State :=
  mkState (allocs st) (memallocs_initialized st) (f (num_allocs st))
          (alloc_mutex st) (stdout st) (heap_calls st).
Definition set_mutex (b : bool) (st : State) : State :=
  mkState (allocs st) (memallocs_initialized st) (num_allocs st) b
          (stdout st) (heap_calls st).
Definition add_out (o : list Out) (st : State) : State :=
  mkState (allocs st) (memallocs_initialized st) (num_allocs st)
          (alloc_mutex st) (stdout st ++ o) (heap_calls st).
Definition add_call (c : HeapCall) (st : State) : State :=
  mkState (allocs st) (memallocs_initialized st) (num_allocs st)
          (alloc_mutex st) (stdout st) (heap_calls st ++ [c]).

(** Static storage is zeroed before [main] runs. *)
Definition zero_alloc : MemAlloc := mkMemAlloc NULL 0 0 "" "".
Definition zero_member : MapMember := mkMapMember zero_alloc [].

Definition initial : State :=
  mkState (replicate (Z.to_nat MAP_BUF_SIZE) zero_member) false 0 false [] [].

(** *** Primitives *)

Definition mutex_lock : M State unit :=
  λ st, if alloc_mutex st then Deadlocked st else Returned tt (set_mutex true st).
Definition mutex_unlock : M State unit :=
  λ st, Returned tt (set_mutex false st).
Definition printf (o : Out) : M State unit :=
  λ st, Returned tt (add_out [o] st).
Definition real_malloc (n ret : Z) : M State Z :=
  λ st, Returned ret (add_call (call_malloc n ret) st).
Definition real_realloc (p n ret : Z) : M State Z :=
  λ st, Returned ret (add_call (call_realloc p n ret) st).
Definition real_free (p : Z) : M State unit :=
  λ st, Returned tt (add_call (call_free p) st).

(** [allocs + i]: the array has [MAP_BUF_SIZE] members. *)
Definition get_bucket (i : Z) : M State MapMember :=
  λ st, match allocs st !! Z.to_nat i with
        | Some m => Returned m st
        | None => Undefined OutOfBounds st
        end.
Definition put_bucket (i : Z) (m : MapMember) : M State unit :=
  λ st, Returned tt (set_allocs (λ l, <[Z.to_nat i := m]> l) st).

(** *** Map methods *)

Definition clear_member (m : MapMember) : MapMember :=
  mkMapMember (mkMemAlloc NULL (size (alloc m)) (line (alloc m))
                          (func (alloc m)) (file (alloc m))) [].

Definition memallocs_init : M State unit :=
  λ st, Returned tt (set_initialized true (set_allocs (fmap clear_member) st)).

Definition ensure_init : M State unit :=
  λ st, if memallocs_initialized st then Returned tt st else memallocs_init st.

Local Open Scope c_scope.

(** [node] is what the real [malloc] returns for the new chain node,
    should one be needed. *)
Definition alloc_add (a : MemAlloc) (node : Z) : M State unit :=
  ensure_init;;;
  (λ st, Returned tt (set_num_allocs (λ n, wrap (n + 1)) st));;;
  let i := ptr_hash (ptr a) in
  let* bucket := get_bucket i in
  if ptr (alloc bucket) =? NULL then
    put_bucket i (mkMapMember a (next bucket))
  else
    let* fresh := real_malloc sizeof_MapMember node in
    if fresh =? NULL then undefined NullDeref
    else put_bucket i (mkMapMember (alloc bucket)
                                   (next bucket ++ [mkMapNode fresh a])).

(** The walk of [alloc_remove] along a chain: the first node holding
    [p] is unlinked; the result is its address and the remaining chain. *)
Fixpoint chain_remove (p : Z) (chain : list MapNode) : option (Z * list MapNode) :=
  match chain with
  | [] => None
  | nd :: rest =>
      if ptr (node_alloc nd) =? p then Some (node_addr nd, rest)
      else match chain_remove p rest with
           | Some (freed, rest') => Some (freed, nd :: rest')
           | None => None
           end
  end.

Definition decr_num_allocs : M State unit :=
  λ st, Returned tt (set_num_allocs (λ n, wrap (n - 1)) st).

Definition alloc_remove (p : Z) : M State bool :=
  ensure_init;;;
  let i := ptr_hash p in
  let* bucket := get_bucket i in
  if ptr (alloc bucket) =? p then
    match next bucket with
    | to_free :: rest =>
        put_bucket i (mkMapMember (node_alloc to_free) rest);;;
        real_free (node_addr to_free);;;
        decr_num_allocs;;;
        ret true
    | [] =>
        put_bucket i (mkMapMember
          (mkMemAlloc NULL (size (alloc bucket)) (line (alloc bucket))
                      (func (alloc bucket)) (file (alloc bucket))) []);;;
        decr_num_allocs;;;
        ret true
    end
  else
    match chain_remove p (next bucket) with
    | Some (freed, chain') =>
        put_bucket i (mkMapMember (alloc bucket) chain');;;
        real_free freed;;;
        decr_num_allocs;;;
        ret true
    | None => ret false
    end.

(** The records [print_heap] visits in one bucket: it stops at the first
    member whose pointer is null. *)
Fixpoint heap_walk (a : MemAlloc) (chain : list MapNode) : list MemAlloc :=
  if ptr a =? NULL then []
  else a :: match chain with
            | [] => []
            | nd :: rest => heap_walk (node_alloc nd) rest
            end.

Definition enumerate (st : State) : list MemAlloc :=
  concat (map (λ m, heap_walk (alloc m) (next m)) (allocs st)).

Definition heap_line (a : MemAlloc) : Out :=
  out_heap_ptr (ptr a) (size a) (file a) (line a).

Definition total_size (l : list MemAlloc) : Z :=
  fold_left (λ acc a, wrap (acc + size a)) l 0.

Definition print_heap : M State unit :=
  mutex_lock;;;
  ensure_init;;;
  printf out_heap_banner;;;
  (λ st, Returned tt (add_out (map heap_line (enumerate st)) st));;;
  mutex_unlock;;;
  (λ st, printf (out_heap_total (total_size (enumerate st)) (num_allocs st)) st).

Definition mempanic {A} (badptr : Z) (message : string) (line : Z)
    (func file : string) : M State A :=
  printf (out_panic message badptr line func file);;;
  exit MEMPANIC_EXIT_STATUS.

Definition OOM {A} (line : Z) (func file : string) (num_bytes : Z) : M State A :=
  printf (out_oom line func file num_bytes);;;
  print_heap;;;
  exit OOM_EXIT_STATUS.

(** *** malloc(), realloc(), free() redefinitions *)

Definition memdebug_malloc (n line : Z) (func file : string)
    (result node : Z) : M State Z :=
  let* p := real_malloc n result in
  (if p =? NULL then OOM line func file n else ret tt);;;
  when PRINT_MEMALLOCS (printf (out_malloc n p line func file));;;
  let newalloc := mkMemAlloc p n line func file in
  mutex_lock;;;
  alloc_add newalloc node;;;
  mutex_unlock;;;
  ret p.

Definition memdebug_realloc (p n line : Z) (func file : string)
    (result node : Z) : M State Z :=
  mutex_lock;;;
  let* removed := alloc_remove p in
  (if negb (p =? NULL) && negb removed
   then mempanic p "Tried to realloc() an invalid pointer." line func file
   else ret tt);;;
  let* newptr := real_realloc p n result in
  (if newptr =? NULL then OOM line func file n else ret tt);;;
  when PRINT_MEMALLOCS (printf (out_realloc p n newptr line func file));;;
  let newalloc := mkMemAlloc newptr n line func file in
  alloc_add newalloc node;;;
  mutex_unlock;;;
  ret newptr.

Definition memdebug_free (p line : Z) (func file : string) : M State unit :=
  mutex_lock;;;
  let* removed := alloc_remove p in
  (if negb (p =? NULL) && negb removed
   then mempanic p "Tried to free() an invalid pointer." line func file
   else ret tt);;;
  mutex_unlock;;;
  real_free p;;;
  when PRINT_MEMALLOCS (printf (out_free p line func file)).

(** *** The registry as a set of records *)

(** The records a member of the array holds: the inline record unless its
    pointer is null, then the chain. *)
Definition bucket_records (m : MapMember) : list MemAlloc :=
  (if ptr (alloc m) =? NULL then [] else [alloc m]) ++ map node_alloc (next m).

Definition records (st : State) : list MemAlloc :=
  concat (map bucket_records (allocs st)).

Definition addresses (st : State) : list Z := map ptr (records st).

(** An address resolves when [alloc_remove] would find it. *)
Definition resolves (p : Z) (st : State) : bool :=
  match alloc_remove p st with
  | Returned true _ => true
  | _ => false
  end.

(** The state [ensure_init] leaves behind. *)
Definition inited (st : State) : State :=
  if memallocs_initialized st then st
  else set_initialized true (set_allocs (fmap clear_member) st).

(** What [alloc_remove] does to the member it looks at: the new member
    and the chain node handed to [free], or [None] when [p] is absent. *)
Definition member_remove (p : Z) (m : MapMember) : option (MapMember * option Z) :=
  if ptr (alloc m) =? p then
    match next m with
    | to_free :: rest =>
        Some (mkMapMember (node_alloc to_free) rest, Some (node_addr to_free))
    | [] => Some (mkMapMember
                    (mkMemAlloc NULL (size (alloc m)) (line (alloc m))
                                (func (alloc m)) (file (alloc m))) [], None)
    end
  else
    match chain_remove p (next m) with
    | Some (freed, chain') => Some (mkMapMember (alloc m) chain', Some freed)
    | None => None
    end.

(** The state a successful [alloc_remove] leaves, from the initialised
    state [st]. *)
Definition after_remove (i : Z) (m' : MapMember) (freed : option Z)
    (st : State) : State :=
  let st1 := set_allocs (λ l, <[Z.to_nat i := m']> l) st in
  let st2 := match freed with
             | Some f => add_call (call_free f) st1
             | None => st1
             end in
  set_num_allocs (λ n, wrap (n - 1)) st2.

(** What [alloc_add] does to the member it looks at; [None] when the
    chain node could not be allocated. *)
Definition member_add (a : MemAlloc) (node : Z) (m : MapMember) : option MapMember :=
  if ptr (alloc m) =? NULL then Some (mkMapMember a (next m))
  else if node =? NULL then None
  else Some (mkMapMember (alloc m) (next m ++ [mkMapNode node a])).

Definition bucket_ok (i : Z) (m : MapMember) : Prop :=
  (ptr (alloc m) = NULL → next m = []) ∧
  Forall (λ r, ptr r ≠ NULL ∧ ptr_hash (ptr r) = i) (bucket_records m).

(** The shape of the table in every state of a run. *)
Record table_ok (st : State) : Prop := mk_table_ok {
  tb_length : length (allocs st) = Z.to_nat MAP_BUF_SIZE;
  tb_bucket : ∀ i m, allocs st !! i = Some m → bucket_ok (Z.of_nat i) m;
  tb_init : memallocs_initialized st = false →
            Forall (λ m, ptr (alloc m) = NULL) (allocs st)
}.

(** A state between two calls of the wrappers. *)
Record wf (st : State) : Prop := mk_wf {
  wf_table : table_ok st;
  wf_unique : NoDup (addresses st);
  wf_count : 0 <= num_allocs st < SIZE_MODULUS;
  wf_mutex : alloc_mutex st = false
}.

(** *** Runs of the three wrappers *)

Inductive Op : Type :=
| op_malloc (n line : Z) (func file : string) (result node : Z)
| op_realloc (p n line : Z) (func file : string) (result node : Z)
| op_free (p line : Z) (func file : string).

Definition exec (o : Op) : M State unit :=
  match o with
  | op_malloc n line func file result node =>
      memdebug_malloc n line func file result node;;; ret tt
  | op_realloc p n line func file result node =>
      memdebug_realloc p n line func file result node;;; ret tt
  | op_free p line func file => memdebug_free p line func file
  end.

Fixpoint run (ops : list Op) : M State unit :=
  match ops with
  | [] => ret tt
  | o :: ops' => exec o;;; run ops'
  end.

(** No misuse: a released or resized address is null or live; and the
    real allocator never hands out an address that is live (a resize may
    give back the block it was handed). *)
Definition no_misuse (st : State) (o : Op) : Prop :=
  match o with
  | op_malloc _ _ _ _ result _ => result ∉ addresses st
  | op_realloc p _ _ _ _ result _ =>
      (p = NULL ∨ p ∈ addresses st) ∧ (result = p ∨ result ∉ addresses st)
  | op_free p _ _ _ => p = NULL ∨ p ∈ addresses st
  end.

Inductive reachable : State → Prop :=
| reachable_initial : reachable initial
| reachable_step st o st' :
    reachable st → no_misuse st o → exec o st = Returned tt st' → reachable st'.

(** What the live count should move by: an allocate (or a resize of
    null) adds one, a release of a non-null address takes one away. *)
Definition count_change (o : Op) : Z :=
  match o with
  | op_malloc _ _ _ _ _ _ => 1
  | op_realloc p _ _ _ _ _ _ => if p =? NULL then 1 else 0
  | op_free p _ _ _ => if p =? NULL then 0 else -1
  end.

Definition expected_count (ops : list Op) : Z :=
  fold_right (λ o acc, count_change o + acc) 0 ops.

(** The state after [void* ptr = malloc(1);] on line 26 of the README's
    example, the real [malloc] returning the address [8]. *)
Definition one_alloc : State :=
  final_state (memdebug_malloc 1 26 "main" "test.c" 8 4096 initial).

Definition touches_null (o : Op) : bool :=
  match o with
  | op_malloc _ _ _ _ _ _ => false
  | op_realloc p _ _ _ _ _ _ => p =? NULL
  | op_free p _ _ _ => p =? NULL
  end.

End Hash.

(** * The array version *)

Module Arr.

Definition MEMDEBUG_START_NUM_ALLOCS : Z := 5000.
Definition MEM_FAIL_TO_FIND : Z := 4294967295.
Definition sizeof_MemAlloc : Z := 32.
Definition PRINT_MEMALLOCS : bool := true.

Record MemAlloc : Type := mkMemAlloc {
  ptr : Z;
  size : Z;
  line : Z;
  file : string
}.

Inductive Out : Type :=
| out_panic (message : string) (badptr line : Z) (file : string)
| out_oom (line : Z) (file : string) (num_bytes : Z)
| out_track_failed
| out_heap_banner
| out_heap_ptr (ptr size : Z) (file : string) (line : Z)
| out_heap_total (total_allocated num_allocs : Z)
| out_malloc (n ptr : Z) (file : string) (line : Z)
| out_realloc (ptr n newptr : Z) (file : string) (line : Z)
| out_free (ptr : Z) (file : string) (line : Z).

(** [allocs] is the pointer to the tracking array ([NULL] before the
    first push); [storage] is what the block it points to holds, by
    index; only the first [allocs_cap] elements belong to the block. *)
Record State : Type := mkState {
  allocs : Z;
  storage : Z → MemAlloc;
  num_allocs : Z;
  allocs_cap : Z;
  alloc_mutex : bool;
  stdout : list Out;
  heap_calls : list HeapCall
}.

Definition set_allocs (a : Z) (st : State) : State :=
  mkState a (storage st) (num_allocs st) (allocs_cap st) (alloc_mutex st)
          (stdout st) (heap_calls st).
Definition set_storage (f : Z → MemAlloc) (st : State) : State :=
  mkState (allocs st) f (num_allocs st) (allocs_cap st) (alloc_mutex st)
          (stdout st) (heap_calls st).
Definition set_num_allocs (n : Z) (st : State) : State :=
  mkState (allocs st) (storage st) n (allocs_cap st) (alloc_mutex st)
          (stdout st) (heap_calls st).
Definition set_allocs_cap (c : Z) (st : State) : State :=
  mkState (allocs st) (storage st) (num_allocs st) c (alloc_mutex st)
          (stdout st) (heap_calls st).
Definition set_mutex (b : bool) (st : State) : State :=
  mkState (allocs st) (storage st) (num_allocs st) (allocs_cap st) b
          (stdout st) (heap_calls st).
Definition add_out (o : Out) (st : State) : State :=
  mkState (allocs st) (storage st) (num_allocs st) (allocs_cap st)
          (alloc_mutex st) (stdout st ++ [o]) (heap_calls st).
Definition add_call (c : HeapCall) (st : State) : State :=
  mkState (allocs st) (storage st) (num_allocs st) (allocs_cap st)
          (alloc_mutex st) (stdout st) (heap_calls st ++ [c]).

Definition zero_alloc : MemAlloc := mkMemAlloc NULL 0 0 "".

Definition initial : State :=
  mkState NULL (λ _, zero_alloc) 0 0 false [] [].

(** *** Primitives *)

Definition mutex_lock : M State unit :=
  λ st, if alloc_mutex st then Deadlocked st else Returned tt (set_mutex true st).
Definition mutex_unlock : M State unit :=
  λ st, Returned tt (set_mutex false st).
Definition printf (o : Out) : M State unit :=
  λ st, Returned tt (add_out o st).
Definition real_malloc (n ret : Z) : M State Z :=
  λ st, Returned ret (add_call (call_malloc n ret) st).
Definition real_realloc (p n ret : Z) : M State Z :=
  λ st, Returned ret (add_call (call_realloc p n ret) st).
Definition real_free (p : Z) : M State unit :=
  λ st, Returned tt (add_call (call_free p) st).

(** [allocs[i]] as an rvalue and as an lvalue. *)
Definition load (i : Z) : M State MemAlloc :=
  λ st, if allocs st =? NULL then Undefined NullDeref st
        else if (0 <=? i) && (i <? allocs_cap st) then Returned (storage st i) st
        else Undefined OutOfBounds st.
Definition store (i : Z) (a : MemAlloc) : M State unit :=
  λ st, if allocs st =? NULL then Undefined NullDeref st
        else if (0 <=? i) && (i <? allocs_cap st)
        then Returned tt (set_storage (λ j, if j =? i then a else storage st j) st)
        else Undefined OutOfBounds st.

Local Open Scope c_scope.

Definition mempanic {A} (badptr : Z) (message : string) (line : Z)
    (file : string) : M State A :=
  printf (out_panic message badptr line file);;;
  exit MEMPANIC_EXIT_STATUS.

(** The loop of [print_heap], from index [i], for [fuel] more rounds. *)
Fixpoint print_heap_loop (fuel : nat) (i total_allocated : Z) : M State Z :=
  match fuel with
  | O => ret total_allocated
  | S fuel' =>
      let* a := load i in
      printf (out_heap_ptr (ptr a) (size a) (file a) (line a));;;
      print_heap_loop fuel' (i + 1) (wrap (total_allocated + size a))
  end.

Definition print_heap : M State unit :=
  printf out_heap_banner;;;
  let* total_allocated :=
    (λ st, print_heap_loop (Z.to_nat (num_allocs st)) 0 0 st) in
  (λ st, printf (out_heap_total total_allocated (num_allocs st)) st).

Definition OOM {A} (line : Z) (file : string) (num_bytes : Z) : M State A :=
  printf (out_oom line file num_bytes);;;
  print_heap;;;
  exit OOM_EXIT_STATUS.

(** The loop of [alloc_find_index], from index [i]. *)
Fixpoint alloc_find_loop (p : Z) (fuel : nat) (i : Z) : M State Z :=
  match fuel with
  | O => ret MEM_FAIL_TO_FIND
  | S fuel' =>
      let* a := load i in
      if ptr a =? p then ret i else alloc_find_loop p fuel' (i + 1)
  end.

Definition alloc_find_index (p : Z) : M State Z :=
  λ st, alloc_find_loop p (Z.to_nat (num_allocs st)) 0 st.

Section Growth.

(** [allocs_cap * 1.4] is computed in double precision and truncated
    when it is stored in a [size_t]; the function is left abstract. *)
Variable grow_cap : Z → Z.

(** [fresh] is what the real [malloc] or [realloc] returns for the
    tracking array, should it have to be created or grown. *)
Definition alloc_push (a : MemAlloc) (fresh : Z) : M State unit :=
  (λ st,
    if num_allocs st >=? allocs_cap st then
      if allocs_cap st =? 0 then
        (let* blk := real_malloc (wrap (sizeof_MemAlloc * MEMDEBUG_START_NUM_ALLOCS)) fresh in
         λ st', Returned tt (set_allocs blk (set_allocs_cap MEMDEBUG_START_NUM_ALLOCS st'))) st
      else
        let new_allocs_cap := grow_cap (allocs_cap st) in
        (let* newptr := real_realloc (allocs st) (wrap (sizeof_MemAlloc * new_allocs_cap)) fresh in
         (if newptr =? NULL then
            printf out_track_failed;;;
            OOM 153 "memdebug.h" (wrap (sizeof_MemAlloc * new_allocs_cap))
          else ret tt);;;
         λ st', Returned tt (set_allocs newptr (set_allocs_cap new_allocs_cap st'))) st
    else Returned tt st);;;
  let* n := (λ st, Returned (num_allocs st) st) in
  store n a;;;
  λ st, Returned tt (set_num_allocs (wrap (n + 1)) st).

(** The shifting loop of [alloc_remove]. *)
Fixpoint alloc_remove_loop (fuel : nat) (index : Z) : M State unit :=
  match fuel with
  | O => ret tt
  | S fuel' =>
      let* a := load (index + 1) in
      store index a;;;
      alloc_remove_loop fuel' (index + 1)
  end.

Definition alloc_remove (index : Z) : M State unit :=
  (λ st, Returned tt (set_num_allocs (wrap (num_allocs st - 1)) st));;;
  λ st, alloc_remove_loop (Z.to_nat (num_allocs st - index)) index st.

Definition alloc_update (index : Z) (new_info : MemAlloc) : M State unit :=
  store index new_info.

(** *** malloc(), realloc(), free() redefinitions *)

Definition memdebug_malloc (n line : Z) (file : string)
    (result fresh : Z) : M State Z :=
  let* p := real_malloc n result in
  (if p =? NULL then OOM line file n else ret tt);;;
  when PRINT_MEMALLOCS (printf (out_malloc n p file line));;;
  let newalloc := mkMemAlloc p n line file in
  mutex_lock;;;
  alloc_push newalloc fresh;;;
  mutex_unlock;;;
  ret p.

Definition memdebug_realloc (p n line : Z) (file : string)
    (result : Z) : M State Z :=
  mutex_lock;;;
  let* alloc_index := alloc_find_index p in
  (if negb (p =? NULL) && (alloc_index =? MEM_FAIL_TO_FIND)
   then mempanic p "Tried to realloc() an invalid pointer." line file
   else ret tt);;;
  let* newptr := real_realloc p n result in
  (if newptr =? NULL then OOM line file n else ret tt);;;
  when PRINT_MEMALLOCS (printf (out_realloc p n newptr file line));;;
  let newalloc := mkMemAlloc newptr n line file in
  alloc_update alloc_index newalloc;;;
  mutex_unlock;;;
  ret newptr.

Definition memdebug_free (p line : Z) (file : string) : M State unit :=
  mutex_lock;;;
  let* alloc_index := alloc_find_index p in
  (if negb (p =? NULL) && (alloc_index =? MEM_FAIL_TO_FIND)
   then mempanic p "Tried to free() an invalid pointer." line file
   else ret tt);;;
  real_free p;;;
  when PRINT_MEMALLOCS (printf (out_free p file line));;;
  alloc_remove alloc_index;;;
  mutex_unlock.

End Growth.

(** The README's [malloc(20); malloc(25);], the real [malloc] returning
    the addresses [16] and [48] (and [4096] for the tracking array). *)
Definition two_allocs (grow_cap : Z → Z) : State :=
  final_state ((memdebug_malloc grow_cap 20 31 "test.c" 16 4096;;;
                memdebug_malloc grow_cap 25 32 "test.c" 48 0) initial).

(** A tracking array that is full: [MEMDEBUG_START_NUM_ALLOCS] records
    in a block of that capacity. *)
Definition full : State :=
  mkState 4096 (λ i, mkMemAlloc (16 * (i + 1)) 1 0 "test.c")
          MEMDEBUG_START_NUM_ALLOCS MEMDEBUG_START_NUM_ALLOCS false [] [].

(** The records the array tracks, in order: [allocs[0]] up to
    [allocs[num_allocs - 1]]. *)
Definition tracked (st : State) : list MemAlloc :=
  map (λ i, storage st (Z.of_nat i)) (seq 0 (Z.to_nat (num_allocs st))).

Definition heap_line (a : MemAlloc) : Out :=
  out_heap_ptr (ptr a) (size a) (file a) (line a).

Definition total_size (l : list MemAlloc) : Z :=
  fold_left (λ acc a, wrap (acc + size a)) l 0.

(** The tracking array exists and holds its records within its
    capacity. *)
Record array_ok (st : State) : Prop := mk_array_ok {
  ok_allocs : allocs st ≠ NULL;
  ok_count : 0 <= num_allocs st <= allocs_cap st;
  ok_cap : allocs_cap st < SIZE_MODULUS
}.

(** The contents of the array after [allocs[i] = a]. *)
Definition put (i : Z) (a : MemAlloc) (f : Z → MemAlloc) : Z → MemAlloc :=
  λ j, if j =? i then a else f j.

Definition set_stdout (o : list Out) (st : State) : State :=
  mkState (allocs st) (storage st) (num_allocs st) (allocs_cap st)
          (alloc_mutex st) o (heap_calls st).

(** A growth function for examples only: the product [allocs_cap * 1.4]
    in exact arithmetic.  It gives what the code computes at the
    capacity 5000 the array starts with (7000), not at every capacity:
    the code multiplies in double precision, and at 2988000 the
    truncated double is 4183199 where this function gives 4183200.  The
    theorems hold for every growth function. *)
Definition grow_exact (c : Z) : Z := c * 7 / 5.

(** A table of [2^32] records, the record at index [i] tracking the
    address [16 * (i + 1)]; the last one sits at index [4294967295]. *)
Definition crowded : State :=
  mkState 4096 (λ i, mkMemAlloc (16 * (i + 1)) 1 0 "test.c")
          4294967296 4294967296 false [] [].

End Arr.

(** * Facts about the hash-map version *)

Module HashProofs.
Import Hash.

Local Arguments ptr_hash : simpl never.

Lemma wrap_range z : 0 <= wrap z < SIZE_MODULUS.
Proof. unfold wrap, SIZE_MODULUS. apply Z.mod_pos_bound. lia. Qed.

Lemma wrap_small z : 0 <= z < SIZE_MODULUS → wrap z = z.
Proof. intros H. unfold wrap. apply Z.mod_small. exact H. Qed.

Lemma wrap_wrap_add x y : wrap (wrap x + y) = wrap (x + y).
Proof. unfold wrap. apply Zplus_mod_idemp_l. Qed.

Lemma wrap_pred_succ n : 0 <= n < SIZE_MODULUS → wrap (wrap (n - 1) + 1) = n.
Proof.
  intros H. rewrite wrap_wrap_add. replace (n - 1 + 1) with n by lia.
  by apply wrap_small.
Qed.

Lemma log_base_2_nine : log_base_2 64 (1 + sizeof_voidp) = Some 3.
Proof. reflexivity. Qed.

Lemma ptr_hash_range v : 0 <= ptr_hash v < MAP_BUF_SIZE.
Proof.
  unfold ptr_hash. rewrite log_base_2_nine. cbv zeta.
  apply Z.mod_pos_bound. reflexivity.
Qed.

Lemma ptr_hash_NULL : ptr_hash NULL = 0.
Proof. reflexivity. Qed.

Lemma ptr_hash_lt_length st v :
  length (allocs st) = Z.to_nat MAP_BUF_SIZE →
  (Z.to_nat (ptr_hash v) < length (allocs st))%nat.
Proof. intros ->. pose proof (ptr_hash_range v). lia. Qed.

(** ** Lazy initialisation *)

Lemma ensure_init_eq st : ensure_init st = Returned tt (inited st).
Proof. unfold ensure_init, inited, memallocs_init. by destruct (memallocs_initialized st). Qed.

Lemma clear_member_id m :
  ptr (alloc m) = NULL → next m = [] → clear_member m = m.
Proof.
  destruct m as [[p sz ln fn fl] nx]. simpl. intros -> ->. reflexivity.
Qed.

Lemma inited_allocs st : table_ok st → allocs (inited st) = allocs st.
Proof.
  intros W. unfold inited. destruct (memallocs_initialized st) eqn:E; [done|].
  simpl. pose proof (tb_init st W E) as Hz.
  apply list_eq. intros i. rewrite list_lookup_fmap.
  destruct (allocs st !! i) as [m|] eqn:Hm; [|done]. simpl. f_equal.
  eapply Forall_lookup_1 in Hz; eauto.
  apply clear_member_id; [done|].
  by apply (tb_bucket st W i m Hm).
Qed.

Lemma inited_length st : length (allocs (inited st)) = length (allocs st).
Proof.
  unfold inited. destruct (memallocs_initialized st); [done|].
  simpl. by rewrite length_fmap.
Qed.

Lemma inited_num_allocs st : num_allocs (inited st) = num_allocs st.
Proof. unfold inited. by destruct (memallocs_initialized st). Qed.
Lemma inited_mutex st : alloc_mutex (inited st) = alloc_mutex st.
Proof. unfold inited. by destruct (memallocs_initialized st). Qed.
Lemma inited_stdout st : stdout (inited st) = stdout st.
Proof. unfold inited. by destruct (memallocs_initialized st). Qed.
Lemma inited_heap_calls st : heap_calls (inited st) = heap_calls st.
Proof. unfold inited. by destruct (memallocs_initialized st). Qed.
Lemma inited_initialized st : memallocs_initialized (inited st) = true.
Proof. unfold inited. by destruct (memallocs_initialized st) eqn:E. Qed.

(** A fresh table, or one that was never initialised, holds no record. *)
Lemma bucket_records_clear m : bucket_records (clear_member m) = [].
Proof. reflexivity. Qed.

Lemma records_inited_uninit st :
  memallocs_initialized st = false → records (inited st) = [].
Proof.
  intros E. unfold inited, records. rewrite E.
  unfold set_initialized, set_allocs. cbn [allocs].
  induction (allocs st) as [|m l IH]; [done|].
  rewrite fmap_cons. cbn [map concat]. rewrite IH. reflexivity.
Qed.

Lemma records_inited_init st :
  memallocs_initialized st = true → inited st = st.
Proof. intros E. unfold inited. by rewrite E. Qed.

(** ** Chains *)

Lemma chain_remove_Some p c freed c' :
  chain_remove p c = Some (freed, c') →
  ∃ c1 nd c2, c = c1 ++ nd :: c2 ∧ c' = c1 ++ c2 ∧
              ptr (node_alloc nd) = p ∧ node_addr nd = freed ∧
              Forall (λ x, ptr (node_alloc x) ≠ p) c1.
Proof.
  revert freed c'. induction c as [|nd rest IH]; intros freed c' H; simpl in H; [done|].
  destruct (ptr (node_alloc nd) =? p) eqn:E.
  - apply Z.eqb_eq in E. injection H as <- <-.
    exists [], nd, rest. by repeat split.
  - apply Z.eqb_neq in E.
    destruct (chain_remove p rest) as [[f r']|] eqn:R; [|done].
    injection H as <- <-.
    destruct (IH _ _ eq_refl) as (c1 & x & c2 & -> & -> & Hp & Hf & Hall).
    exists (nd :: c1), x, c2. repeat split; try done. by constructor.
Qed.

Lemma chain_remove_None p c :
  chain_remove p c = None ↔ Forall (λ x, ptr (node_alloc x) ≠ p) c.
Proof.
  induction c as [|nd rest IH]; simpl; [by split|].
  destruct (ptr (node_alloc nd) =? p) eqn:E.
  - apply Z.eqb_eq in E. split; [done|]. intros H. by inversion H.
  - apply Z.eqb_neq in E. destruct (chain_remove p rest) as [[f r']|].
    + split; [done|]. intros H. inversion H; subst.
      by assert (Some (f, r') = None) by (by apply IH).
    + split; [|done]. intros _. constructor; [done|]. by apply IH.
Qed.

(** ** Records under an update of one member *)

Lemma records_split (l : list MapMember) i m :
  l !! i = Some m →
  concat (map bucket_records l) =
    concat (map bucket_records (take i l)) ++ bucket_records m ++
    concat (map bucket_records (drop (S i) l)).
Proof.
  intros H. rewrite <- (take_drop_middle l i m H) at 1.
  rewrite map_app, concat_app. simpl. reflexivity.
Qed.

Lemma records_insert (l : list MapMember) i m m' :
  l !! i = Some m →
  concat (map bucket_records (<[i:=m']> l)) =
    concat (map bucket_records (take i l)) ++ bucket_records m' ++
    concat (map bucket_records (drop (S i) l)).
Proof.
  intros H. rewrite insert_take_drop by (by eapply lookup_lt_Some).
  rewrite map_app, concat_app. simpl. reflexivity.
Qed.

Lemma bucket_records_sub (l : list MapMember) i m r :
  l !! i = Some m → r ∈ bucket_records m → r ∈ concat (map bucket_records l).
Proof.
  intros H Hr. rewrite (records_split l i m H).
  rewrite !elem_of_app. auto.
Qed.


(** ** [alloc_remove] and [alloc_add] in closed form *)

Lemma alloc_remove_eq p st :
  alloc_remove p st =
  match allocs (inited st) !! Z.to_nat (ptr_hash p) with
  | None => Undefined OutOfBounds (inited st)
  | Some m =>
      match member_remove p m with
      | Some (m', freed) => Returned true (after_remove (ptr_hash p) m' freed (inited st))
      | None => Returned false (inited st)
      end
  end.
Proof.
  unfold alloc_remove, bind. rewrite ensure_init_eq. unfold get_bucket.
  destruct (allocs (inited st) !! Z.to_nat (ptr_hash p)) as [m|]; [|done].
  unfold member_remove. destruct (ptr (alloc m) =? p).
  - by destruct (next m).
  - by destruct (chain_remove p (next m)) as [[f c]|].
Qed.

Lemma alloc_add_eq a node st :
  alloc_add a node st =
  let st1 := set_num_allocs (λ n, wrap (n + 1)) (inited st) in
  match allocs st1 !! Z.to_nat (ptr_hash (ptr a)) with
  | None => Undefined OutOfBounds st1
  | Some m =>
      if ptr (alloc m) =? NULL
      then Returned tt (set_allocs (λ l, <[Z.to_nat (ptr_hash (ptr a)) := mkMapMember a (next m)]> l) st1)
      else if node =? NULL
      then Undefined NullDeref (add_call (call_malloc sizeof_MapMember node) st1)
      else Returned tt
             (set_allocs (λ l, <[Z.to_nat (ptr_hash (ptr a)) :=
                                   mkMapMember (alloc m) (next m ++ [mkMapNode node a])]> l)
                         (add_call (call_malloc sizeof_MapMember node) st1))
  end.
Proof.
  unfold alloc_add, bind. rewrite ensure_init_eq. unfold get_bucket. cbv zeta.
  destruct (allocs _ !! _) as [m|]; [|done].
  destruct (ptr (alloc m) =? NULL); [done|].
  unfold real_malloc. by destruct (node =? NULL).
Qed.

(** ** One member *)

Lemma member_remove_ok i p m m' freed :
  bucket_ok i m → member_remove p m = Some (m', freed) →
  bucket_ok i m' ∧
  ((p = NULL ∧ m' = m ∧ freed = None) ∨
   (p ≠ NULL ∧ ∃ l1 r l2, bucket_records m = l1 ++ r :: l2 ∧
                 bucket_records m' = l1 ++ l2 ∧ ptr r = p)).
Proof.
  intros [Hc Hr] H. unfold member_remove in H.
  destruct (ptr (alloc m) =? p) eqn:E.
  - apply Z.eqb_eq in E. destruct (Z.eq_dec p NULL) as [->|Hp].
    + rewrite (Hc E) in H. injection H as <- <-.
      assert (mkMapMember (mkMemAlloc NULL (size (alloc m)) (line (alloc m))
                 (func (alloc m)) (file (alloc m))) [] = m) as ->.
      { destruct m as [[a1 a2 a3 a4 a5] nx]. simpl in *. by rewrite E, (Hc E). }
      split; [by split|]. by left.
    + assert (bucket_records m = alloc m :: map node_alloc (next m)) as Hrec.
      { unfold bucket_records. rewrite <- E in Hp.
        apply Z.eqb_neq in Hp. by rewrite Hp. }
      rewrite Hrec in Hr. apply Forall_cons in Hr as [Ha Hn].
      destruct (next m) as [|to_free rest] eqn:Hnx; injection H as <- <-.
      * split.
        -- split; [done|]. unfold bucket_records. simpl. constructor.
        -- right. split; [done|]. exists [], (alloc m), [].
           rewrite Hrec. by repeat split.
      * simpl in Hn. apply Forall_cons in Hn as [Hf Hn].
        assert (bucket_records (mkMapMember (node_alloc to_free) rest)
                = node_alloc to_free :: map node_alloc rest) as Hrec'.
        { unfold bucket_records. simpl. destruct Hf as [Hf _].
          apply Z.eqb_neq in Hf. by rewrite Hf. }
        split.
        -- split; [simpl; intros Hz; by destruct Hf|]. rewrite Hrec'. by constructor.
        -- right. split; [done|]. exists [], (alloc m), (node_alloc to_free :: map node_alloc rest).
           rewrite Hrec, Hrec'. by repeat split.
  - apply Z.eqb_neq in E.
    destruct (chain_remove p (next m)) as [[f c']|] eqn:R; [|done].
    injection H as <- <-.
    destruct (chain_remove_Some _ _ _ _ R) as (c1 & nd & c2 & Hnx & -> & Hp & _ & _).
    assert (ptr (alloc m) ≠ NULL) as Hnz.
    { intros Hz. rewrite (Hc Hz) in Hnx. by destruct c1. }
    assert (∀ c, bucket_records (mkMapMember (alloc m) c) = alloc m :: map node_alloc c) as Hrec.
    { intros c. unfold bucket_records. simpl. apply Z.eqb_neq in Hnz. by rewrite Hnz. }
    assert (bucket_records m = alloc m :: map node_alloc (next m)) as Hrm.
    { rewrite <- Hrec. by destruct m. }
    rewrite Hrm, Hnx in Hr. rewrite map_app in Hr. simpl in Hr.
    split.
    + split; [done|]. rewrite Hrec, map_app.
      apply Forall_cons in Hr as [Ha Hr]. apply Forall_app in Hr as [H1 H2].
      apply Forall_cons in H2 as [_ H2].
      constructor; [done|]. by apply Forall_app.
    + right. split.
      { rewrite <- Hp. apply Forall_cons in Hr as [_ Hr]. apply Forall_app in Hr as [_ H2].
        apply Forall_cons in H2 as [[H2 _] _]. done. }
      exists (alloc m :: map node_alloc c1), (node_alloc nd), (map node_alloc c2).
      rewrite Hrm, Hrec, Hnx, !map_app. simpl. by repeat split.
Qed.

Lemma member_remove_None p m :
  p ≠ NULL → p ∉ map ptr (bucket_records m) → member_remove p m = None.
Proof.
  intros Hp Hno. unfold member_remove, bucket_records in *.
  rewrite map_app in Hno. apply not_elem_of_app in Hno as [H1 H2].
  destruct (ptr (alloc m) =? p) eqn:E.
  - apply Z.eqb_eq in E. exfalso. apply H1.
    rewrite <- E in Hp. apply Z.eqb_neq in Hp. rewrite Hp. simpl. rewrite E. by left.
  - assert (chain_remove p (next m) = None) as ->; [|done].
    apply chain_remove_None. apply Forall_forall. intros x Hx Hpx.
    apply H2. rewrite <- Hpx. rewrite <- list_fmap_compose.
    by apply (list_elem_of_fmap_2 (ptr ∘ node_alloc)).
Qed.

Lemma member_remove_found i p m :
  bucket_ok i m → p ∈ map ptr (bucket_records m) → is_Some (member_remove p m).
Proof.
  intros [Hc Hr] Hin. unfold member_remove.
  destruct (ptr (alloc m) =? p) eqn:E; [by destruct (next m)|].
  apply Z.eqb_neq in E.
  destruct (chain_remove p (next m)) as [[f c']|] eqn:R; [done|].
  exfalso. apply chain_remove_None in R.
  unfold bucket_records in Hin. rewrite map_app in Hin.
  apply elem_of_app in Hin as [Hin|Hin].
  - destruct (ptr (alloc m) =? NULL); simpl in Hin.
    + by apply elem_of_nil in Hin.
    + apply list_elem_of_singleton in Hin. done.
  - apply list_elem_of_fmap in Hin as (r & -> & Hin).
    apply list_elem_of_fmap in Hin as (nd & -> & Hin).
    rewrite Forall_forall in R. by apply (R nd).
Qed.

Lemma member_add_ok i a node m m' :
  bucket_ok i m → ptr a ≠ NULL → ptr_hash (ptr a) = i →
  member_add a node m = Some m' →
  bucket_ok i m' ∧ bucket_records m' = bucket_records m ++ [a].
Proof.
  intros [Hc Hr] Ha Hh H. unfold member_add in H.
  destruct (ptr (alloc m) =? NULL) eqn:E.
  - apply Z.eqb_eq in E. injection H as <-.
    unfold bucket_ok, bucket_records in *. simpl.
    rewrite (Hc E) in *. apply Z.eqb_neq in Ha as Ha'. rewrite Ha'.
    apply Z.eqb_eq in E. rewrite E. simpl. split; [|done].
    split; [done|]. by repeat constructor.
  - destruct (node =? NULL); [done|]. injection H as <-.
    unfold bucket_ok, bucket_records in *. simpl. rewrite E in *.
    rewrite map_app. simpl. split; [|done].
    apply Z.eqb_neq in E. split; [done|].
    apply Forall_cons in Hr as [Hr1 Hr2]. constructor; [done|].
    apply Forall_app. split; [done|]. by repeat constructor.
Qed.


(** ** The whole table *)

Lemma elem_of_records (l : list MapMember) r :
  r ∈ concat (map bucket_records l) →
  ∃ i m, l !! i = Some m ∧ r ∈ bucket_records m.
Proof.
  induction l as [|m l IH]; simpl; intros H.
  - by apply elem_of_nil in H.
  - apply elem_of_app in H as [H|H].
    + by exists 0%nat, m.
    + destruct (IH H) as (i & m' & Hi & Hr). by exists (S i), m'.
Qed.

Lemma table_ok_same st st' :
  table_ok st → allocs st' = allocs st →
  (memallocs_initialized st' = false → memallocs_initialized st = false) →
  table_ok st'.
Proof.
  intros [H1 H2 H4] Ha Hf.
  split; rewrite ?Ha; auto.
Qed.

Lemma table_ok_inited st : table_ok st → table_ok (inited st).
Proof.
  intros W. apply (table_ok_same st); [done|by apply inited_allocs|].
  by rewrite inited_initialized.
Qed.

Lemma table_ok_insert st st' i m m' :
  table_ok st → allocs st !! i = Some m →
  allocs st' = <[i:=m']> (allocs st) →
  memallocs_initialized st' = true →
  bucket_ok (Z.of_nat i) m' →
  table_ok st'.
Proof.
  intros [H1 H2 H4] Hm Ha Hf Hb. split.
  - by rewrite Ha, length_insert.
  - intros j mj. rewrite Ha. destruct (decide (i = j)) as [<-|Hne].
    + rewrite list_lookup_insert_eq by (by eapply lookup_lt_Some). by intros [= <-].
    + rewrite list_lookup_insert_ne by done. apply H2.
  - by rewrite Hf.
Qed.

Lemma alloc_remove_total st p :
  length (allocs st) = Z.to_nat MAP_BUF_SIZE →
  ∃ b st', alloc_remove p st = Returned b st'.
Proof.
  intros Hl. rewrite alloc_remove_eq.
  destruct (lookup_lt_is_Some_2 (allocs (inited st)) (Z.to_nat (ptr_hash p))) as [m ->].
  { rewrite inited_length. by apply ptr_hash_lt_length. }
  destruct (member_remove p m) as [[m' f]|]; eauto.
Qed.

Lemma after_remove_allocs i m' f st :
  allocs (after_remove i m' f st) = <[Z.to_nat i := m']> (allocs st).
Proof. by destruct f. Qed.
Lemma after_remove_num_allocs i m' f st :
  num_allocs (after_remove i m' f st) = wrap (num_allocs st - 1).
Proof. by destruct f. Qed.
Lemma after_remove_mutex i m' f st :
  alloc_mutex (after_remove i m' f st) = alloc_mutex st.
Proof. by destruct f. Qed.
Lemma after_remove_stdout i m' f st :
  stdout (after_remove i m' f st) = stdout st.
Proof. by destruct f. Qed.
Lemma after_remove_initialized i m' f st :
  memallocs_initialized (after_remove i m' f st) = memallocs_initialized st.
Proof. by destruct f. Qed.

Lemma alloc_remove_spec st p b st' :
  table_ok st → alloc_remove p st = Returned b st' →
  table_ok st' ∧
  num_allocs st' = (if b then wrap (num_allocs st - 1) else num_allocs st) ∧
  alloc_mutex st' = alloc_mutex st ∧
  stdout st' = stdout st ∧
  (if b && negb (p =? NULL)
   then ∃ r, ptr r = p ∧ records st ≡ₚ r :: records st'
   else allocs st' = allocs st).
Proof.
  intros W H. rewrite alloc_remove_eq in H.
  pose proof (table_ok_inited st W) as W0.
  pose proof (inited_allocs st W) as Ha0.
  destruct (allocs (inited st) !! Z.to_nat (ptr_hash p)) as [m|] eqn:Hm; [|done].
  destruct (member_remove p m) as [[m' f]|] eqn:Hr.
  - injection H as <- <-.
    rewrite after_remove_num_allocs, after_remove_mutex, after_remove_stdout.
    rewrite inited_num_allocs, inited_mutex, inited_stdout.
    pose proof (tb_bucket _ W0 _ _ Hm) as Hb.
    destruct (member_remove_ok _ _ _ _ _ Hb Hr) as [Hb' Hcase].
    destruct Hcase as [(-> & -> & ->)|(Hp & l1 & r & l2 & Hr1 & Hr2 & Hpr)].
    + simpl. assert (allocs (after_remove (ptr_hash NULL) m None (inited st)) = allocs st) as Hsame.
      { rewrite after_remove_allocs, list_insert_id; done. }
      split_and!; try done.
      apply (table_ok_same (inited st)); [done|by rewrite Hsame|].
      by rewrite after_remove_initialized, inited_initialized.
    + apply Z.eqb_neq in Hp as Hp'. rewrite Hp'. simpl.
      assert (records st ≡ₚ r :: records (after_remove (ptr_hash p) m' f (inited st))) as Hperm.
      { unfold records. rewrite after_remove_allocs, <- Ha0.
        rewrite (records_split _ _ _ Hm), (records_insert _ _ _ m' Hm), Hr1, Hr2.
        rewrite <- !app_assoc. cbn [app].
        rewrite <- !Permutation_middle. done. }
      split_and!; try done; [|by exists r].
      apply (table_ok_insert (inited st) _ (Z.to_nat (ptr_hash p)) m m'); try done.
      * by rewrite after_remove_allocs.
      * by rewrite after_remove_initialized, inited_initialized.
  - injection H as <- <-.
    rewrite inited_num_allocs, inited_mutex, inited_stdout. simpl.
    split_and!; done.
Qed.

Lemma records_same st st' : allocs st' = allocs st → records st' = records st.
Proof. unfold records. by intros ->. Qed.

Lemma alloc_remove_unique st p b st' :
  table_ok st → NoDup (addresses st) → alloc_remove p st = Returned b st' →
  NoDup (addresses st') ∧ (∀ q, q ∈ addresses st' → q ∈ addresses st) ∧
  (b = true → p ≠ NULL → p ∉ addresses st').
Proof.
  intros W Hnd H.
  destruct (alloc_remove_spec _ _ _ _ W H) as (_ & _ & _ & _ & Hrec).
  destruct (b && negb (p =? NULL)) eqn:E.
  - destruct Hrec as (r & Hr & Hperm). unfold addresses in *.
    rewrite Hperm in Hnd. simpl in Hnd. apply NoDup_cons in Hnd as [Hn1 Hn2].
    split_and!; [done| |].
    + intros q Hq. rewrite Hperm. simpl. by right.
    + intros _ _. by rewrite <- Hr.
  - unfold addresses. rewrite (records_same _ _ Hrec). split_and!; [done..|].
    intros -> Hp. apply Z.eqb_neq in Hp. by rewrite Hp in E.
Qed.


Lemma alloc_remove_live st p :
  table_ok st → p ∈ addresses st → ∃ st', alloc_remove p st = Returned true st'.
Proof.
  intros W Hin. rewrite alloc_remove_eq, (inited_allocs st W).
  unfold addresses in Hin. apply list_elem_of_fmap in Hin as (r & -> & Hr).
  destruct (elem_of_records _ _ Hr) as (i & m & Hm & Hrm).
  pose proof (tb_bucket _ W _ _ Hm) as Hb.
  assert (ptr_hash (ptr r) = Z.of_nat i) as Hh.
  { destruct Hb as [_ Hall]. rewrite Forall_forall in Hall. by apply Hall. }
  rewrite Hh, Nat2Z.id, Hm.
  destruct (member_remove_found _ (ptr r) _ Hb) as [[m' f] ->]; [|by eauto].
  by apply (list_elem_of_fmap_2 ptr).
Qed.

Lemma addresses_inited st p : p ∉ addresses st → p ∉ addresses (inited st).
Proof.
  intros H. destruct (memallocs_initialized st) eqn:E.
  - by rewrite records_inited_init.
  - unfold addresses. rewrite records_inited_uninit by done. apply not_elem_of_nil.
Qed.

Lemma alloc_remove_absent st p :
  length (allocs st) = Z.to_nat MAP_BUF_SIZE →
  p ≠ NULL → p ∉ addresses st →
  alloc_remove p st = Returned false (inited st).
Proof.
  intros Hl Hp Hno. rewrite alloc_remove_eq.
  destruct (lookup_lt_is_Some_2 (allocs (inited st)) (Z.to_nat (ptr_hash p))) as [m Hm].
  { rewrite inited_length. by apply ptr_hash_lt_length. }
  rewrite Hm, member_remove_None; [done|done|].
  intros Hin. apply (addresses_inited _ _ Hno). unfold addresses, records.
  apply list_elem_of_fmap in Hin as (r & -> & Hr).
  apply (list_elem_of_fmap_2 ptr). by eapply bucket_records_sub.
Qed.

Lemma alloc_add_member a node st :
  alloc_add a node st =
  let st1 := set_num_allocs (λ n, wrap (n + 1)) (inited st) in
  let i := Z.to_nat (ptr_hash (ptr a)) in
  match allocs (inited st) !! i with
  | None => Undefined OutOfBounds st1
  | Some m =>
      match member_add a node m with
      | None => Undefined NullDeref (add_call (call_malloc sizeof_MapMember node) st1)
      | Some m' =>
          Returned tt (set_allocs (λ l, <[i := m']> l)
            (if ptr (alloc m) =? NULL then st1
             else add_call (call_malloc sizeof_MapMember node) st1))
      end
  end.
Proof.
  rewrite alloc_add_eq. cbv zeta. cbn [allocs set_num_allocs].
  destruct (allocs (inited st) !! _) as [m|]; [|done].
  unfold member_add. destruct (ptr (alloc m) =? NULL); [done|].
  by destruct (node =? NULL).
Qed.

Lemma alloc_add_spec st a node st' :
  table_ok st → ptr a ≠ NULL →
  alloc_add a node st = Returned tt st' →
  table_ok st' ∧
  records st' ≡ₚ a :: records st ∧
  num_allocs st' = wrap (num_allocs st + 1) ∧
  alloc_mutex st' = alloc_mutex st ∧
  stdout st' = stdout st.
Proof.
  intros W Ha H. rewrite alloc_add_member in H. cbv zeta in H.
  pose proof (table_ok_inited st W) as W0.
  pose proof (inited_allocs st W) as Ha0.
  destruct (allocs (inited st) !! Z.to_nat (ptr_hash (ptr a))) as [m|] eqn:Hm; [|done].
  destruct (member_add a node m) as [m'|] eqn:Hadd; [|done].
  injection H as <-.
  pose proof (tb_bucket _ W0 _ _ Hm) as Hb.
  assert (ptr_hash (ptr a) = Z.of_nat (Z.to_nat (ptr_hash (ptr a)))) as Hidx.
  { pose proof (ptr_hash_range (ptr a)). lia. }
  destruct (member_add_ok _ _ _ _ _ Hb Ha Hidx Hadd) as [Hb' Hrec].
  set (st1 := if ptr (alloc m) =? NULL then _ else _).
  assert (allocs st1 = allocs (inited st)) as Hst1 by (subst st1; by destruct (_ =? _)).
  assert (num_allocs st1 = wrap (num_allocs st + 1)) as Hn1.
  { subst st1. destruct (_ =? _); simpl; by rewrite inited_num_allocs. }
  assert (alloc_mutex st1 = alloc_mutex st) as Hm1.
  { subst st1. destruct (_ =? _); simpl; by rewrite inited_mutex. }
  assert (stdout st1 = stdout st) as Ho1.
  { subst st1. destruct (_ =? _); simpl; by rewrite inited_stdout. }
  assert (memallocs_initialized st1 = true) as Hi1.
  { subst st1. destruct (_ =? _); simpl; by rewrite inited_initialized. }
  assert (records (set_allocs (λ l, <[Z.to_nat (ptr_hash (ptr a)) := m']> l) st1)
          ≡ₚ a :: records st) as Hperm.
  { unfold records. cbn [allocs set_allocs]. rewrite Hst1, <- Ha0.
    rewrite (records_split _ _ _ Hm), (records_insert _ _ _ m' Hm), Hrec.
    rewrite <- !app_assoc. cbn [app].
    rewrite !app_assoc. by rewrite <- Permutation_middle. }
  split_and!; try done.
  apply (table_ok_insert (inited st) _ (Z.to_nat (ptr_hash (ptr a))) m m'); try done.
  cbn [allocs set_allocs]. by rewrite Hst1.
Qed.

Lemma alloc_add_unique st a node st' :
  table_ok st → ptr a ≠ NULL → NoDup (addresses st) → ptr a ∉ addresses st →
  alloc_add a node st = Returned tt st' → NoDup (addresses st').
Proof.
  intros W Ha Hnd Hfresh H.
  destruct (alloc_add_spec _ _ _ _ W Ha H) as (_ & Hperm & _).
  unfold addresses. rewrite Hperm. simpl. by apply NoDup_cons.
Qed.

Lemma alloc_add_total st a node :
  length (allocs st) = Z.to_nat MAP_BUF_SIZE → node ≠ NULL →
  ∃ st', alloc_add a node st = Returned tt st'.
Proof.
  intros Hl Hn. rewrite alloc_add_member. cbv zeta.
  destruct (lookup_lt_is_Some_2 (allocs (inited st)) (Z.to_nat (ptr_hash (ptr a)))) as [m ->].
  { rewrite inited_length. by apply ptr_hash_lt_length. }
  unfold member_add. apply Z.eqb_neq in Hn. rewrite Hn.
  destruct (ptr (alloc m) =? NULL); eauto.
Qed.


(** ** The heap dump *)

Lemma heap_walk_chain a (c : list MapNode) :
  ptr a ≠ NULL → Forall (λ nd, ptr (node_alloc nd) ≠ NULL) c →
  heap_walk a c = a :: map node_alloc c.
Proof.
  intros Ha Hc. revert a Ha. induction Hc as [|nd c Hnd Hc IH]; intros a Ha.
  - simpl. apply Z.eqb_neq in Ha. by rewrite Ha.
  - simpl. apply Z.eqb_neq in Ha. rewrite Ha. f_equal. by apply IH.
Qed.

Lemma heap_walk_records i m :
  bucket_ok i m → heap_walk (alloc m) (next m) = bucket_records m.
Proof.
  intros [Hc Hr]. unfold bucket_records in *.
  destruct (ptr (alloc m) =? NULL) eqn:E.
  - apply Z.eqb_eq in E. rewrite (Hc E). simpl. apply Z.eqb_eq in E. by rewrite E.
  - apply Z.eqb_neq in E. simpl in Hr. apply Forall_cons in Hr as [_ Hr].
    apply heap_walk_chain; [done|].
    apply Forall_forall. intros nd Hnd. rewrite Forall_forall in Hr.
    apply (Hr (node_alloc nd)). by apply (list_elem_of_fmap_2 node_alloc).
Qed.

Lemma enumerate_records st : table_ok st → enumerate st = records st.
Proof.
  intros W. unfold enumerate, records. f_equal.
  apply list_eq. intros i. change map with (@fmap list _). rewrite !list_lookup_fmap.
  destruct (allocs st !! i) as [m|] eqn:Hm; [|done]. simpl. f_equal.
  eapply heap_walk_records. by apply (tb_bucket st W i m).
Qed.

Lemma OOM_unlocked {A} line func file n st :
  alloc_mutex st = false →
  ∃ st', OOM (A:=A) line func file n st = Exited OOM_EXIT_STATUS st' ∧
         stdout st' = stdout st ++ [out_oom line func file n; out_heap_banner]
                      ++ map heap_line (enumerate (inited st))
                      ++ [out_heap_total (total_size (enumerate (inited st))) (num_allocs st)] ∧
         allocs st' = allocs (inited st) ∧ num_allocs st' = num_allocs st.
Proof.
  intros Hm. unfold OOM, print_heap, bind, printf, mutex_lock, mutex_unlock, exit.
  cbn [alloc_mutex add_out]. rewrite Hm, ensure_init_eq. eexists. split; [reflexivity|].
  cbn [stdout allocs num_allocs add_out set_mutex enumerate].
  unfold enumerate, inited. destruct (memallocs_initialized st) eqn:E;
    cbn [memallocs_initialized set_mutex add_out]; rewrite E;
    cbn [stdout allocs num_allocs add_out set_mutex set_initialized set_allocs];
    rewrite <- !app_assoc; done.
Qed.

Lemma OOM_locked {A} line func file n st :
  alloc_mutex st = true →
  OOM (A:=A) line func file n st = Deadlocked (add_out [out_oom line func file n] st).
Proof.
  intros Hm. unfold OOM, print_heap, bind, printf, mutex_lock.
  cbn [alloc_mutex add_out]. by rewrite Hm.
Qed.

Lemma OOM_never_returns {A} line func file n st (a : A) st' :
  OOM line func file n st ≠ Returned a st'.
Proof.
  destruct (alloc_mutex st) eqn:Hm.
  - by rewrite OOM_locked.
  - destruct (OOM_unlocked (A:=A) line func file n st Hm) as (s & -> & _). done.
Qed.

(** ** The wrappers in closed form *)

Lemma memdebug_free_eq p line func file st :
  alloc_mutex st = false →
  memdebug_free p line func file st =
  lift (alloc_remove p (set_mutex true st)) (λ removed st1,
    if negb (p =? NULL) && negb removed
    then Exited MEMPANIC_EXIT_STATUS
           (add_out [out_panic "Tried to free() an invalid pointer." p line func file] st1)
    else Returned tt (add_out [out_free p line func file]
                        (add_call (call_free p) (set_mutex false st1)))).
Proof.
  intros Hm. unfold memdebug_free, bind, mutex_lock. rewrite Hm. unfold lift.
  destruct (alloc_remove p (set_mutex true st)) as [removed st1| | |]; try done.
  by destruct (negb (p =? NULL) && negb removed).
Qed.

Lemma memdebug_realloc_eq p n line func file result node st :
  alloc_mutex st = false →
  memdebug_realloc p n line func file result node st =
  lift (alloc_remove p (set_mutex true st)) (λ removed st1,
    if negb (p =? NULL) && negb removed
    then Exited MEMPANIC_EXIT_STATUS
           (add_out [out_panic "Tried to realloc() an invalid pointer." p line func file] st1)
    else
      let st2 := add_call (call_realloc p n result) st1 in
      if result =? NULL then lift (OOM (A:=unit) line func file n st2) (λ _ s, Deadlocked s)
      else lift (alloc_add (mkMemAlloc result n line func file) node
                   (add_out [out_realloc p n result line func file] st2))
                (λ _ st3, Returned result (set_mutex false st3))).
Proof.
  intros Hm. unfold memdebug_realloc, bind, mutex_lock. rewrite Hm. unfold lift.
  destruct (alloc_remove p (set_mutex true st)) as [removed st1| | |]; try done.
  destruct (negb (p =? NULL) && negb removed); [done|].
  unfold ret, real_realloc. cbv zeta.
  destruct (result =? NULL).
  - by destruct (OOM line func file n _) eqn:E; [apply OOM_never_returns in E| | |].
  - unfold when, PRINT_MEMALLOCS, printf, mutex_unlock, bind.
    by destruct (alloc_add _ _ _).
Qed.

Lemma memdebug_malloc_eq n line func file result node st :
  alloc_mutex st = false →
  memdebug_malloc n line func file result node st =
  let st1 := add_call (call_malloc n result) st in
  if result =? NULL then lift (OOM (A:=unit) line func file n st1) (λ _ s, Deadlocked s)
  else lift (alloc_add (mkMemAlloc result n line func file) node
               (set_mutex true (add_out [out_malloc n result line func file] st1)))
            (λ _ st3, Returned result (set_mutex false st3)).
Proof.
  intros Hm. unfold memdebug_malloc, bind, real_malloc. cbv zeta. unfold lift.
  destruct (result =? NULL).
  - by destruct (OOM line func file n _) eqn:E; [apply OOM_never_returns in E| | |].
  - unfold when, PRINT_MEMALLOCS, printf, mutex_lock, mutex_unlock, bind, ret.
    cbn [alloc_mutex add_out add_call]. rewrite Hm.
    by destruct (alloc_add _ _ _).
Qed.


(** ** Frames: the table only depends on [allocs] and the flag *)

Lemma table_ok_frame st st' :
  table_ok st → allocs st' = allocs st →
  memallocs_initialized st' = memallocs_initialized st → table_ok st'.
Proof. intros W Ha Hf. apply (table_ok_same st); [done..|]. by rewrite Hf. Qed.

Lemma addresses_same st st' : allocs st' = allocs st → addresses st' = addresses st.
Proof. unfold addresses. intros H. by rewrite (records_same _ _ H). Qed.

Lemma addresses_nonnull st p : table_ok st → p ∈ addresses st → p ≠ NULL.
Proof.
  intros W Hin. unfold addresses in Hin.
  apply list_elem_of_fmap in Hin as (r & -> & Hr).
  destruct (elem_of_records _ _ Hr) as (i & m & Hm & Hrm).
  destruct (tb_bucket _ W _ _ Hm) as [_ Hall].
  rewrite Forall_forall in Hall. by apply Hall.
Qed.

Lemma table_ok_initial : table_ok initial.
Proof.
  split.
  - unfold initial. cbn [allocs]. by rewrite length_replicate.
  - intros i m Hm. unfold initial in Hm. cbn [allocs] in Hm.
    apply lookup_replicate in Hm as [-> _]. split; [done|]. constructor.
  - intros _. unfold initial. cbn [allocs]. apply Forall_replicate. done.
Qed.

Lemma records_initial : records initial = [].
Proof.
  unfold records, initial. cbn [allocs].
  induction (Z.to_nat MAP_BUF_SIZE) as [|k IH]; [done|]. simpl. exact IH.
Qed.

Lemma wf_initial : wf initial.
Proof.
  split.
  - apply table_ok_initial.
  - unfold addresses. rewrite records_initial. constructor.
  - done.
  - done.
Qed.

(** ** Every step of a run keeps the state well formed *)

Lemma exec_wf st o st' :
  wf st → no_misuse st o → exec o st = Returned tt st' → wf st'.
Proof.
  intros [W Hnd Hc Hm] Hmis H.
  assert (table_ok (set_mutex true st)) as W1 by (by apply (table_ok_frame st)).
  destruct o as [n line func file result node|p n line func file result node|p line func file];
    simpl in H, Hmis.
  - (* malloc *)
    unfold bind in H.
    destruct (memdebug_malloc n line func file result node st) as [a s| | |] eqn:E; try done.
    injection H as <-. rewrite memdebug_malloc_eq in E by done. cbv zeta in E.
    destruct (result =? NULL) eqn:Hres.
    { by destruct (OOM line func file n _). }
    apply Z.eqb_neq in Hres.
    destruct (alloc_add _ node _) as [[] st3| | |] eqn:Hadd; try done.
    simpl in E. injection E as <- <-.
    set (st0 := set_mutex true _) in Hadd.
    assert (table_ok st0) as W0 by (by apply (table_ok_frame st)).
    destruct (alloc_add_spec st0 (mkMemAlloc result n line func file) node st3 W0 Hres Hadd) as (W3 & Hperm & Hn3 & _ & _).
    split.
    + by apply (table_ok_frame st3).
    + change (NoDup (addresses st3)).
      apply (alloc_add_unique st0 (mkMemAlloc result n line func file) node);
        [done|done|exact Hnd|exact Hmis|done].
    + cbn [num_allocs set_mutex]. rewrite Hn3. apply wrap_range.
    + done.
  - (* realloc *)
    destruct Hmis as [Hp Hfresh]. unfold bind in H.
    destruct (memdebug_realloc p n line func file result node st) as [a s| | |] eqn:E; try done.
    injection H as <-. rewrite memdebug_realloc_eq in E by done.
    destruct (alloc_remove p (set_mutex true st)) as [b st1| | |] eqn:R; try done.
    simpl in E. destruct (negb (p =? NULL) && negb b) eqn:G; [done|].
    destruct (result =? NULL) eqn:Hres.
    { by destruct (OOM line func file n _). }
    apply Z.eqb_neq in Hres.
    destruct (alloc_add _ node _) as [[] st3| | |] eqn:Hadd; try done.
    simpl in E. injection E as <- <-.
    destruct (alloc_remove_spec _ _ _ _ W1 R) as (Wr & Hn1 & _ & _ & _).
    destruct (alloc_remove_unique _ _ _ _ W1 Hnd R) as (Hnd1 & Hsub & Hgone).
    set (st2 := add_out _ _) in Hadd.
    assert (table_ok st2) as W2 by (by apply (table_ok_frame st1)).
    destruct (alloc_add_spec st2 (mkMemAlloc result n line func file) node st3 W2 Hres Hadd) as (W3 & Hperm & Hn3 & _ & _).
    split.
    + by apply (table_ok_frame st3).
    + change (NoDup (addresses st3)).
      apply (alloc_add_unique st2 (mkMemAlloc result n line func file) node);
        [done|done|exact Hnd1| |done].
      cbn [ptr]. change (addresses st2) with (addresses st1).
      destruct Hfresh as [->|Hfresh]; [|by intros Hin; apply Hfresh, Hsub].
      destruct b; [by apply Hgone|].
      destruct (p =? NULL) eqn:Hpz; [by apply Z.eqb_eq in Hpz|done].
    + cbn [num_allocs set_mutex]. rewrite Hn3. apply wrap_range.
    + done.
  - (* free *)
    rewrite memdebug_free_eq in H by done.
    destruct (alloc_remove p (set_mutex true st)) as [b st1| | |] eqn:R; try done.
    simpl in H. destruct (negb (p =? NULL) && negb b) eqn:G; [done|].
    injection H as <-.
    destruct (alloc_remove_spec _ _ _ _ W1 R) as (Wr & Hn1 & _ & _ & _).
    destruct (alloc_remove_unique _ _ _ _ W1 Hnd R) as (Hnd1 & _ & _).
    split.
    + by apply (table_ok_frame st1).
    + done.
    + cbn [num_allocs add_out add_call set_mutex]. rewrite Hn1.
      destruct b; [apply wrap_range|done].
    + done.
Qed.

Lemma reachable_wf st : reachable st → wf st.
Proof.
  induction 1 as [|st o st' _ IH Hmis Hex]; [apply wf_initial|].
  by apply (exec_wf st o).
Qed.


(** ** Counting *)

Lemma alloc_remove_count st p b st' :
  alloc_remove p st = Returned b st' →
  num_allocs st' = (if b then wrap (num_allocs st - 1) else num_allocs st) ∧
  alloc_mutex st' = alloc_mutex st.
Proof.
  rewrite alloc_remove_eq. intros H.
  destruct (allocs (inited st) !! _) as [m|]; [|done].
  destruct (member_remove p m) as [[m' f]|]; injection H as <- <-.
  - by rewrite after_remove_num_allocs, after_remove_mutex, inited_num_allocs, inited_mutex.
  - by rewrite inited_num_allocs, inited_mutex.
Qed.

Lemma alloc_add_count st a node st' :
  alloc_add a node st = Returned tt st' →
  num_allocs st' = wrap (num_allocs st + 1) ∧ alloc_mutex st' = alloc_mutex st.
Proof.
  rewrite alloc_add_member. cbv zeta. intros H.
  destruct (allocs (inited st) !! _) as [m|]; [|done].
  destruct (member_add a node m) as [m'|]; [|done]. injection H as <-.
  destruct (ptr (alloc m) =? NULL); cbn; by rewrite inited_num_allocs, inited_mutex.
Qed.

Lemma exec_count st o st' :
  alloc_mutex st = false → touches_null o = false →
  exec o st = Returned tt st' →
  num_allocs st' = wrap (num_allocs st + count_change o) ∧ alloc_mutex st' = false.
Proof.
  intros Hm Hnull H.
  destruct o as [n line func file result node|p n line func file result node|p line func file];
    simpl in H, Hnull |- *.
  - unfold bind in H.
    destruct (memdebug_malloc n line func file result node st) as [a s| | |] eqn:E; try done.
    injection H as <-. rewrite memdebug_malloc_eq in E by done. cbv zeta in E.
    destruct (result =? NULL); [by destruct (OOM line func file n _)|].
    destruct (alloc_add _ node _) as [[] st3| | |] eqn:Hadd; try done.
    simpl in E. injection E as <- <-.
    destruct (alloc_add_count _ _ _ _ Hadd) as [Hn3 _].
    cbn [num_allocs set_mutex alloc_mutex]. by rewrite Hn3.
  - unfold bind in H.
    destruct (memdebug_realloc p n line func file result node st) as [a s| | |] eqn:E; try done.
    injection H as <-. rewrite memdebug_realloc_eq in E by done.
    destruct (alloc_remove p (set_mutex true st)) as [b st1| | |] eqn:R; try done.
    simpl in E. rewrite Hnull in *. simpl in E. destruct b; [|done]. simpl in E.
    destruct (result =? NULL); [by destruct (OOM line func file n _)|].
    destruct (alloc_add _ node _) as [[] st3| | |] eqn:Hadd; try done.
    simpl in E. injection E as <- <-.
    destruct (alloc_remove_count _ _ _ _ R) as [Hn1 _].
    destruct (alloc_add_count _ _ _ _ Hadd) as [Hn3 _].
    cbn [num_allocs set_mutex alloc_mutex]. split; [|done].
    rewrite Hn3. cbn [num_allocs add_out add_call]. rewrite Hn1.
    cbn [num_allocs set_mutex]. rewrite wrap_wrap_add. f_equal; lia.
  - rewrite memdebug_free_eq in H by done.
    destruct (alloc_remove p (set_mutex true st)) as [b st1| | |] eqn:R; try done.
    simpl in H. rewrite Hnull in *. simpl in H. destruct b; [|done]. simpl in H.
    injection H as <-.
    destruct (alloc_remove_count _ _ _ _ R) as [Hn1 _].
    cbn [num_allocs add_out add_call set_mutex alloc_mutex]. split; [|done].
    rewrite Hn1. cbn [num_allocs set_mutex]. f_equal; lia.
Qed.

(** Without null addresses the counter is the live count: after a run
    that comes back, [num_allocs] is the old count plus the allocations
    minus the releases (modulo [2^64]). *)
Lemma run_count ops st st' :
  alloc_mutex st = false → 0 <= num_allocs st < SIZE_MODULUS →
  forallb (λ o, negb (touches_null o)) ops = true →
  run ops st = Returned tt st' →
  num_allocs st' = wrap (num_allocs st + expected_count ops).
Proof.
  revert st. induction ops as [|o ops IH]; intros st Hm Hc Hnull H.
  - injection H as <-. simpl. rewrite Z.add_0_r. by rewrite wrap_small.
  - simpl in Hnull. apply andb_prop in Hnull as [Ho Hops].
    apply negb_true_iff in Ho.
    simpl in H. unfold bind in H.
    destruct (exec o st) as [[] st1| | |] eqn:E; try done.
    destruct (exec_count _ _ _ Hm Ho E) as [Hn1 Hm1].
    rewrite (IH st1 Hm1) by (rewrite ?Hn1; try apply wrap_range; done).
    rewrite Hn1, wrap_wrap_add. simpl. f_equal; lia.
Qed.


(** ** Removal of a non-null address *)

(** For a non-null address [alloc_remove] is the registry's [remove]: it
    answers whether a record with that address exists, takes exactly that
    record out and counts down when it does, and only runs the lazy
    initialisation when it does not. *)
Lemma alloc_remove_nonnull st p :
  table_ok st → p ≠ NULL →
  (p ∈ addresses st →
   ∃ st' r, alloc_remove p st = Returned true st' ∧ ptr r = p ∧
            records st ≡ₚ r :: records st' ∧
            num_allocs st' = wrap (num_allocs st - 1)) ∧
  (p ∉ addresses st →
   alloc_remove p st = Returned false (inited st) ∧
   allocs (inited st) = allocs st ∧ num_allocs (inited st) = num_allocs st).
Proof.
  intros W Hp. split.
  - intros Hin. destruct (alloc_remove_live _ _ W Hin) as [st' H].
    destruct (alloc_remove_spec _ _ _ _ W H) as (_ & Hn & _ & _ & Hrec).
    apply Z.eqb_neq in Hp. rewrite Hp in Hrec. simpl in Hrec.
    destruct Hrec as (r & Hr & Hperm). by exists st', r.
  - intros Hno. split_and!.
    + apply alloc_remove_absent; [by apply (tb_length st)|done..].
    + by apply inited_allocs.
    + apply inited_num_allocs.
Qed.

(** What a successful removal does to the bucket: a match in the inline
    slot is replaced by the head of the chain, whose node is freed, or
    cleared when there is no chain; a match in the chain is unlinked and
    its node is freed. *)
Lemma alloc_remove_bucket st p m :
  table_ok st → p ≠ NULL →
  allocs st !! Z.to_nat (ptr_hash p) = Some m →
  p ∈ map ptr (bucket_records m) →
  ∃ st' m' freed,
    alloc_remove p st = Returned true st' ∧
    member_remove p m = Some (m', freed) ∧
    allocs st' = <[Z.to_nat (ptr_hash p) := m']> (allocs st) ∧
    heap_calls st' = heap_calls st ++ match freed with
                                      | Some f => [call_free f]
                                      | None => []
                                      end.
Proof.
  intros W Hp Hm Hin.
  pose proof (tb_bucket _ W _ _ Hm) as Hb.
  destruct (member_remove_found _ p m Hb Hin) as [[m' freed] Hr].
  exists (after_remove (ptr_hash p) m' freed (inited st)), m', freed.
  split_and!.
  - by rewrite alloc_remove_eq, (inited_allocs st W), Hm, Hr.
  - done.
  - by rewrite after_remove_allocs, (inited_allocs st W).
  - destruct freed; cbn; rewrite inited_heap_calls; [done|].
    by rewrite app_nil_r.
Qed.

Lemma member_remove_inline p m :
  ptr (alloc m) = p →
  member_remove p m =
    match next m with
    | to_free :: rest =>
        Some (mkMapMember (node_alloc to_free) rest, Some (node_addr to_free))
    | [] => Some (mkMapMember
                    (mkMemAlloc NULL (size (alloc m)) (line (alloc m))
                                (func (alloc m)) (file (alloc m))) [], None)
    end.
Proof. intros H. unfold member_remove. apply Z.eqb_eq in H. by rewrite H. Qed.

Lemma member_remove_chained p m c1 nd c2 :
  ptr (alloc m) ≠ p → next m = c1 ++ nd :: c2 →
  Forall (λ x, ptr (node_alloc x) ≠ p) c1 → ptr (node_alloc nd) = p →
  member_remove p m = Some (mkMapMember (alloc m) (c1 ++ c2), Some (node_addr nd)).
Proof.
  intros Hne Hnx Hc1 Hp. unfold member_remove.
  apply Z.eqb_neq in Hne. rewrite Hne, Hnx. clear Hnx Hne.
  induction Hc1 as [|x c1 Hx _ IH]; simpl.
  - apply Z.eqb_eq in Hp. by rewrite Hp.
  - apply Z.eqb_neq in Hx. rewrite Hx.
    destruct (chain_remove p (c1 ++ nd :: c2)) as [[f c']|]; [|done].
    by injection IH as <- <-.
Qed.

(** ** Claims about the hash-map version *)

(** C3.  Releasing or resizing a non-null address that has no live record
    ends the process: the panic line naming the address and the call site
    is printed, the exit status is [MEMPANIC_EXIT_STATUS], which differs
    from [OOM_EXIT_STATUS], and the table is left as it was. *)
Theorem invalid_pointer_fault st p n line func file result node :
  length (allocs st) = Z.to_nat MAP_BUF_SIZE →
  alloc_mutex st = false →
  p ≠ NULL → p ∉ addresses st →
  memdebug_free p line func file st =
    Exited MEMPANIC_EXIT_STATUS
      (add_out [out_panic "Tried to free() an invalid pointer." p line func file]
               (inited (set_mutex true st))) ∧
  memdebug_realloc p n line func file result node st =
    Exited MEMPANIC_EXIT_STATUS
      (add_out [out_panic "Tried to realloc() an invalid pointer." p line func file]
               (inited (set_mutex true st))) ∧
  MEMPANIC_EXIT_STATUS ≠ OOM_EXIT_STATUS.
Proof.
  intros Hl Hm Hp Hno.
  assert (alloc_remove p (set_mutex true st) = Returned false (inited (set_mutex true st))) as R.
  { by apply alloc_remove_absent. }
  apply Z.eqb_neq in Hp. split_and!.
  - rewrite memdebug_free_eq, R by done. simpl. by rewrite Hp.
  - rewrite memdebug_realloc_eq, R by done. simpl. by rewrite Hp.
  - done.
Qed.

Lemma invalid_pointer_fault_witness :
  memdebug_free 8 34 "main" "test.c" initial =
    Exited MEMPANIC_EXIT_STATUS
      (add_out [out_panic "Tried to free() an invalid pointer." 8 34 "main" "test.c"]
               (inited (set_mutex true initial))) ∧
  memdebug_realloc 8 10 34 "main" "test.c" 16 0 initial =
    Exited MEMPANIC_EXIT_STATUS
      (add_out [out_panic "Tried to realloc() an invalid pointer." 8 34 "main" "test.c"]
               (inited (set_mutex true initial))) ∧
  MEMPANIC_EXIT_STATUS ≠ OOM_EXIT_STATUS.
Proof.
  apply (invalid_pointer_fault initial 8 10 34 "main" "test.c" 16 0).
  - apply (tb_length _ table_ok_initial).
  - exact eq_refl.
  - unfold NULL. lia.
  - unfold addresses. rewrite records_initial. apply not_elem_of_nil.
Defined.

(** In the hash-map version, resizing a live address leaves [num_allocs]
    as it was; the address the real [realloc] returned then has a record
    of the new size and resolves, and the old address, when it differs,
    has no record any more and does not resolve. *)
Theorem resize_live_address st p n2 line func file result node :
  wf st → p ∈ addresses st → result ≠ NULL → node ≠ NULL →
  ∃ st', memdebug_realloc p n2 line func file result node st = Returned result st' ∧
         num_allocs st' = num_allocs st ∧
         mkMemAlloc result n2 line func file ∈ records st' ∧
         resolves result st' = true ∧
         (p ≠ result → (p ∉ addresses st') ∧ resolves p st' = false).
Proof.
  intros [W Hnd Hc Hm] Hin Hres Hnode.
  assert (table_ok (set_mutex true st)) as W1 by (by apply (table_ok_frame st)).
  pose proof (addresses_nonnull _ _ W Hin) as Hp.
  destruct (alloc_remove_live _ _ W1 Hin) as [st1 R].
  destruct (alloc_remove_spec _ _ _ _ W1 R) as (Wr & Hn1 & _ & _ & _).
  destruct (alloc_remove_unique _ _ _ _ W1 Hnd R) as (Hnd1 & Hsub & Hgone).
  set (st2 := add_out [out_realloc p n2 result line func file]
                (add_call (call_realloc p n2 result) st1)).
  assert (table_ok st2) as W2 by (by apply (table_ok_frame st1)).
  destruct (alloc_add_total st2 (mkMemAlloc result n2 line func file) node) as [st3 Hadd];
    [by apply (tb_length st2)|done|].
  destruct (alloc_add_spec st2 (mkMemAlloc result n2 line func file) node st3 W2 Hres Hadd)
    as (W3 & Hperm & Hn3 & _ & _).
  assert (table_ok (set_mutex false st3)) as W4 by (by apply (table_ok_frame st3)).
  exists (set_mutex false st3). split_and!.
  - rewrite memdebug_realloc_eq, R by done. simpl.
    apply Z.eqb_neq in Hp, Hres. rewrite Hp, Hres. simpl.
    fold st2. by rewrite Hadd.
  - cbn [num_allocs set_mutex]. rewrite Hn3. cbn [num_allocs add_out add_call st2].
    rewrite Hn1. cbn [num_allocs set_mutex]. by apply wrap_pred_succ.
  - change (records (set_mutex false st3)) with (records st3).
    rewrite Hperm. by left.
  - destruct (alloc_remove_live (set_mutex false st3) result W4) as [s Hs].
    + change (addresses (set_mutex false st3)) with (addresses st3).
      unfold addresses. rewrite Hperm. simpl. by left.
    + unfold resolves. by rewrite Hs.
  - intros Hne.
    assert (p ∉ addresses (set_mutex false st3)) as Hout.
    { change (addresses (set_mutex false st3)) with (addresses st3).
      unfold addresses. rewrite Hperm. simpl. apply not_elem_of_cons. split; [done|].
      by apply Hgone. }
    split; [done|]. unfold resolves.
    rewrite alloc_remove_absent; [done|by apply (tb_length _ W4)|done..].
Qed.


(** An allocation the real [malloc] serves. *)
Lemma malloc_spec st n line func file result node :
  wf st → result ≠ NULL → result ∉ addresses st → node ≠ NULL →
  ∃ st', memdebug_malloc n line func file result node st = Returned result st' ∧
         wf st' ∧
         records st' ≡ₚ mkMemAlloc result n line func file :: records st ∧
         num_allocs st' = wrap (num_allocs st + 1).
Proof.
  intros [W Hnd Hc Hm] Hres Hfresh Hnode.
  set (st0 := set_mutex true (add_out [out_malloc n result line func file]
                (add_call (call_malloc n result) st))).
  assert (table_ok st0) as W0 by (by apply (table_ok_frame st)).
  destruct (alloc_add_total st0 (mkMemAlloc result n line func file) node) as [st3 Hadd];
    [by apply (tb_length st0)|done|].
  destruct (alloc_add_spec st0 (mkMemAlloc result n line func file) node st3 W0 Hres Hadd)
    as (W3 & Hperm & Hn3 & _ & _).
  exists (set_mutex false st3). split_and!.
  - rewrite memdebug_malloc_eq by done. cbv zeta.
    apply Z.eqb_neq in Hres. rewrite Hres. fold st0. by rewrite Hadd.
  - split.
    + by apply (table_ok_frame st3).
    + change (NoDup (addresses st3)).
      apply (alloc_add_unique st0 (mkMemAlloc result n line func file) node);
        [done|done|exact Hnd|exact Hfresh|done].
    + cbn [num_allocs set_mutex]. rewrite Hn3. apply wrap_range.
    + done.
  - exact Hperm.
  - exact Hn3.
Qed.

Lemma one_alloc_spec :
  wf one_alloc ∧ 8 ∈ addresses one_alloc ∧ num_allocs one_alloc = 1.
Proof.
  destruct (malloc_spec initial 1 26 "main" "test.c" 8 4096 wf_initial)
    as (st' & Hst & Hwf & Hperm & Hn).
  - unfold NULL. lia.
  - unfold addresses. rewrite records_initial. apply not_elem_of_nil.
  - unfold NULL. lia.
  - assert (one_alloc = st') as -> by (unfold one_alloc; by rewrite Hst).
    split_and!; [done| |exact Hn].
    unfold addresses. rewrite Hperm. by left.
Qed.

Lemma resize_live_address_witness :
  ∃ st', memdebug_realloc 8 10 27 "main" "test.c" 16 4096 one_alloc = Returned 16 st' ∧
         num_allocs st' = num_allocs one_alloc ∧
         mkMemAlloc 16 10 27 "main" "test.c" ∈ records st' ∧
         resolves 16 st' = true ∧
         (8 ≠ 16 → (8 ∉ addresses st') ∧ resolves 8 st' = false).
Proof.
  apply (resize_live_address one_alloc 8 10 27 "main" "test.c" 16 4096).
  - apply one_alloc_spec.
  - apply one_alloc_spec.
  - unfold NULL. lia.
  - unfold NULL. lia.
Defined.

(** C8.  In every state a run without misuse reaches, with a real
    allocator that never hands out a live address, no address has two
    records (neither in two buckets nor twice in one chain), and every
    further such operation that comes back keeps it so. *)
Theorem unique_addresses st :
  reachable st →
  NoDup (addresses st) ∧
  ∀ o st', no_misuse st o → exec o st = Returned tt st' → NoDup (addresses st').
Proof.
  intros Hr. pose proof (reachable_wf st Hr) as W. split.
  - by apply (wf_unique st).
  - intros o st' Hmis Hex. apply (wf_unique st'). by apply (exec_wf st o).
Qed.

Lemma unique_addresses_witness :
  NoDup (addresses one_alloc) ∧
  ∀ o st', no_misuse one_alloc o → exec o one_alloc = Returned tt st' →
           NoDup (addresses st').
Proof.
  apply (unique_addresses one_alloc).
  apply (reachable_step initial (op_malloc 1 26 "main" "test.c" 8 4096)).
  - apply reachable_initial.
  - unfold no_misuse, addresses. rewrite records_initial. apply not_elem_of_nil.
  - destruct (malloc_spec initial 1 26 "main" "test.c" 8 4096 wf_initial)
      as (st' & Hst & _).
    + unfold NULL. lia.
    + unfold addresses. rewrite records_initial. apply not_elem_of_nil.
    + unfold NULL. lia.
    + unfold exec, bind, one_alloc. rewrite Hst. reflexivity.
Defined.

(** Records sit in the bucket their address hashes to, so uniqueness of
    addresses is uniqueness across buckets and inside every chain. *)
Lemma reachable_placement st i m r :
  reachable st → allocs st !! i = Some m → r ∈ bucket_records m →
  ptr_hash (ptr r) = Z.of_nat i ∧ ptr r ≠ NULL.
Proof.
  intros Hr Hm Hin. pose proof (wf_table _ (reachable_wf st Hr)) as W.
  destruct (tb_bucket _ W _ _ Hm) as [_ Hall]. rewrite Forall_forall in Hall.
  destruct (Hall r Hin). done.
Qed.


(** ** What the null address does to the table *)

(** [alloc_remove NULL] takes the empty inline slot of bucket 0 for a
    record of the address [NULL]: it reports a removal and counts down,
    although the table holds the same records as before. *)
Lemma alloc_remove_null_empty_slot st m :
  table_ok st → allocs st !! 0%nat = Some m → ptr (alloc m) = NULL →
  ∃ st', alloc_remove NULL st = Returned true st' ∧
         allocs st' = allocs st ∧
         num_allocs st' = wrap (num_allocs st - 1) ∧
         alloc_mutex st' = alloc_mutex st ∧ stdout st' = stdout st.
Proof.
  intros W Hm Hz.
  destruct (alloc_remove_total st NULL (tb_length _ W)) as (b & st' & R).
  destruct (alloc_remove_spec _ _ _ _ W R) as (_ & Hn & Hmu & Ho & Hrec).
  rewrite andb_false_r in Hrec.
  assert (b = true) as ->.
  { rewrite alloc_remove_eq, (inited_allocs st W), ptr_hash_NULL in R.
    change (Z.to_nat 0) with 0%nat in R. rewrite Hm in R.
    unfold member_remove in R. apply Z.eqb_eq in Hz. rewrite Hz in R.
    destruct (next m); by injection R as <- _. }
  by exists st'.
Qed.

Lemma release_null_counts_down st m line func file :
  table_ok st → alloc_mutex st = false →
  allocs st !! 0%nat = Some m → ptr (alloc m) = NULL →
  ∃ st', memdebug_free NULL line func file st = Returned tt st' ∧
         allocs st' = allocs st ∧
         num_allocs st' = wrap (num_allocs st - 1).
Proof.
  intros W Hmu Hm Hz.
  assert (table_ok (set_mutex true st)) as W1 by (by apply (table_ok_frame st)).
  destruct (alloc_remove_null_empty_slot (set_mutex true st) m W1 Hm Hz)
    as (st1 & R & Ha & Hn & _ & _).
  eexists. split_and!.
  - rewrite memdebug_free_eq, R by done. reflexivity.
  - exact Ha.
  - exact Hn.
Qed.

(** When the bucket's inline slot is taken and the real [malloc] has no
    memory for the chain node, [alloc_add] stores through the null
    pointer it was given. *)
Lemma alloc_add_null_node st a m :
  table_ok st → allocs st !! Z.to_nat (ptr_hash (ptr a)) = Some m →
  ptr (alloc m) ≠ NULL →
  ending_of (alloc_add a NULL st) = Faults NullDeref.
Proof.
  intros W Hm Hnz. rewrite alloc_add_member. cbv zeta.
  rewrite (inited_allocs st W), Hm. unfold member_add.
  apply Z.eqb_neq in Hnz. by rewrite Hnz.
Qed.

(** An allocation the real [malloc] refuses: the out-of-memory line and
    the dump of every live record are printed, and the process exits with
    [OOM_EXIT_STATUS]. *)
Lemma malloc_out_of_memory st n line func file node :
  table_ok st → alloc_mutex st = false →
  ∃ st', memdebug_malloc n line func file NULL node st = Exited OOM_EXIT_STATUS st' ∧
         stdout st' = stdout st ++ [out_oom line func file n; out_heap_banner]
                      ++ map heap_line (records st)
                      ++ [out_heap_total (total_size (records st)) (num_allocs st)].
Proof.
  intros W Hm. rewrite memdebug_malloc_eq by done. cbv zeta.
  change (NULL =? NULL) with true. cbv iota.
  set (st1 := add_call (call_malloc n NULL) st).
  assert (table_ok st1) as W1 by (by apply (table_ok_frame st)).
  destruct (OOM_unlocked (A:=unit) line func file n st1 Hm) as (st' & -> & Hout & _).
  exists st'. split; [done|]. rewrite Hout.
  rewrite (enumerate_records (inited st1)) by (by apply table_ok_inited).
  rewrite (records_same st1 (inited st1)) by (by apply inited_allocs).
  reflexivity.
Qed.

(** A resize the real [realloc] refuses: [OOM] is reached with the mutex
    held, and [print_heap] locks it again. *)
Lemma resize_out_of_memory st p n line func file node :
  table_ok st → alloc_mutex st = false → p = NULL ∨ p ∈ addresses st →
  ∃ st', memdebug_realloc p n line func file NULL node st = Deadlocked st' ∧
         stdout st' = stdout st ++ [out_oom line func file n].
Proof.
  intros W Hm Hp.
  assert (table_ok (set_mutex true st)) as W1 by (by apply (table_ok_frame st)).
  assert (∃ b st1, alloc_remove p (set_mutex true st) = Returned b st1 ∧
                   negb (p =? NULL) && negb b = false) as (b & st1 & R & G).
  { destruct Hp as [->|Hin].
    - destruct (alloc_remove_total (set_mutex true st) NULL (tb_length _ W1)) as (b & s & R).
      by exists b, s.
    - destruct (alloc_remove_live _ _ W1 Hin) as [s R]. exists true, s.
      by rewrite andb_false_r. }
  destruct (alloc_remove_spec _ _ _ _ W1 R) as (_ & _ & Hmu & Ho & _).
  rewrite memdebug_realloc_eq, R by done. cbn [lift]. rewrite G. cbv zeta.
  change (NULL =? NULL) with true. cbv iota.
  rewrite OOM_locked by exact Hmu. cbn [lift].
  eexists. split; [reflexivity|]. cbn [stdout add_out add_call]. by rewrite Ho.
Qed.

End HashProofs.

(** * Facts about the array version *)

Module ArrProofs.
Import Arr.

Lemma load_ok st i :
  allocs st ≠ NULL → 0 <= i < allocs_cap st →
  load i st = Returned (storage st i) st.
Proof.
  intros Ha Hi. unfold load. apply Z.eqb_neq in Ha. rewrite Ha.
  destruct (0 <=? i) eqn:E1; [|lia]. destruct (i <? allocs_cap st) eqn:E2; [done|lia].
Qed.

(** The search loop runs to its end when no record in its range holds
    the pointer. *)
Lemma alloc_find_loop_absent p fuel : ∀ i st,
  allocs st ≠ NULL → 0 <= i → i + Z.of_nat fuel <= allocs_cap st →
  (∀ j, i <= j < i + Z.of_nat fuel → ptr (storage st j) ≠ p) →
  alloc_find_loop p fuel i st = Returned MEM_FAIL_TO_FIND st.
Proof.
  induction fuel as [|fuel IH]; intros i st Ha Hi Hcap Hno; [done|].
  cbn [alloc_find_loop]. unfold bind. rewrite load_ok by (done || lia).
  assert (ptr (storage st i) ≠ p) as Hne by (apply Hno; lia).
  apply Z.eqb_neq in Hne. rewrite Hne.
  apply IH; [done|lia|lia|]. intros j Hj. apply Hno. lia.
Qed.

(** It stops at the first record that holds the pointer. *)
Lemma alloc_find_loop_found p fuel : ∀ i k st,
  allocs st ≠ NULL → 0 <= i → i + Z.of_nat fuel <= allocs_cap st →
  i <= k < i + Z.of_nat fuel → ptr (storage st k) = p →
  (∀ j, i <= j < k → ptr (storage st j) ≠ p) →
  alloc_find_loop p fuel i st = Returned k st.
Proof.
  induction fuel as [|fuel IH]; intros i k st Ha Hi Hcap Hk Hp Hno; [lia|].
  cbn [alloc_find_loop]. unfold bind. rewrite load_ok by (done || lia).
  destruct (Z.eq_dec i k) as [->|Hik].
  - apply Z.eqb_eq in Hp. by rewrite Hp.
  - assert (ptr (storage st i) ≠ p) as Hne by (apply Hno; lia).
    apply Z.eqb_neq in Hne. rewrite Hne.
    apply IH; [done|lia|lia|lia|done|]. intros j Hj. apply Hno. lia.
Qed.

Lemma alloc_find_index_found p k st :
  allocs st ≠ NULL → num_allocs st <= allocs_cap st →
  0 <= k < num_allocs st → ptr (storage st k) = p →
  (∀ j, 0 <= j < k → ptr (storage st j) ≠ p) →
  alloc_find_index p st = Returned k st.
Proof.
  intros Ha Hcap Hk Hp Hno. unfold alloc_find_index.
  apply alloc_find_loop_found; [done|lia|lia|lia|done|done].
Qed.

Lemma alloc_find_index_absent p st :
  allocs st ≠ NULL → 0 <= num_allocs st <= allocs_cap st →
  (∀ j, 0 <= j < num_allocs st → ptr (storage st j) ≠ p) →
  alloc_find_index p st = Returned MEM_FAIL_TO_FIND st.
Proof.
  intros Ha Hcap Hno. unfold alloc_find_index.
  apply alloc_find_loop_absent; [done|lia|lia|].
  intros j Hj. apply Hno. lia.
Qed.

(** With no record at all the search does not touch the array. *)
Lemma alloc_find_index_empty p st :
  num_allocs st = 0 → alloc_find_index p st = Returned MEM_FAIL_TO_FIND st.
Proof. intros H. unfold alloc_find_index. by rewrite H. Qed.

Lemma memdebug_free_array_eq p line file st :
  alloc_mutex st = false →
  memdebug_free p line file st =
  lift (alloc_find_index p (set_mutex true st)) (λ alloc_index st1,
    if negb (p =? NULL) && (alloc_index =? MEM_FAIL_TO_FIND)
    then Exited MEMPANIC_EXIT_STATUS
           (add_out (out_panic "Tried to free() an invalid pointer." p line file) st1)
    else lift (alloc_remove alloc_index
                 (add_out (out_free p file line) (add_call (call_free p) st1)))
              (λ _ st2, Returned tt (set_mutex false st2))).
Proof.
  intros Hm. unfold memdebug_free, bind, mutex_lock. rewrite Hm. unfold lift.
  destruct (alloc_find_index p (set_mutex true st)) as [idx st1| | |]; try done.
  destruct (negb (p =? NULL) && (idx =? MEM_FAIL_TO_FIND)); [done|].
  unfold ret, real_free, when, PRINT_MEMALLOCS, printf, mutex_unlock.
  by destruct (alloc_remove idx _).
Qed.

Lemma memdebug_realloc_panics p n line file result st :
  alloc_mutex st = false → p ≠ NULL →
  alloc_find_index p (set_mutex true st) = Returned MEM_FAIL_TO_FIND (set_mutex true st) →
  memdebug_realloc p n line file result st =
    Exited MEMPANIC_EXIT_STATUS
      (add_out (out_panic "Tried to realloc() an invalid pointer." p line file)
               (set_mutex true st)).
Proof.
  intros Hm Hp Hfind. unfold memdebug_realloc, bind, mutex_lock. rewrite Hm, Hfind.
  apply Z.eqb_neq in Hp. by rewrite Hp.
Qed.

Lemma memdebug_free_panics p line file st :
  alloc_mutex st = false → p ≠ NULL →
  alloc_find_index p (set_mutex true st) = Returned MEM_FAIL_TO_FIND (set_mutex true st) →
  memdebug_free p line file st =
    Exited MEMPANIC_EXIT_STATUS
      (add_out (out_panic "Tried to free() an invalid pointer." p line file)
               (set_mutex true st)).
Proof.
  intros Hm Hp Hfind. rewrite memdebug_free_array_eq, Hfind by done. simpl.
  apply Z.eqb_neq in Hp. by rewrite Hp.
Qed.

(** The array version faults on an untracked non-null address as well. *)
Lemma invalid_pointer_fault_array p n line file result st :
  alloc_mutex st = false → p ≠ NULL →
  (num_allocs st = 0 ∨ (allocs st ≠ NULL ∧ 0 <= num_allocs st <= allocs_cap st)) →
  (∀ j, 0 <= j < num_allocs st → ptr (storage st j) ≠ p) →
  memdebug_free p line file st =
    Exited MEMPANIC_EXIT_STATUS
      (add_out (out_panic "Tried to free() an invalid pointer." p line file)
               (set_mutex true st)) ∧
  memdebug_realloc p n line file result st =
    Exited MEMPANIC_EXIT_STATUS
      (add_out (out_panic "Tried to realloc() an invalid pointer." p line file)
               (set_mutex true st)).
Proof.
  intros Hm Hp Hb Hno.
  assert (alloc_find_index p (set_mutex true st)
          = Returned MEM_FAIL_TO_FIND (set_mutex true st)) as Hfind.
  { destruct Hb as [Hz|[Ha Hcap]].
    - by apply alloc_find_index_empty.
    - by apply alloc_find_index_absent. }
  split; [by apply memdebug_free_panics|by apply memdebug_realloc_panics].
Qed.

(** In the array version a resize of a tracked address rewrites its
    record in place: the count stays, the record holds the new address
    and size. *)
Lemma resize_live_address_array st p k n line file result :
  alloc_mutex st = false → allocs st ≠ NULL → 0 <= num_allocs st <= allocs_cap st →
  0 <= k < num_allocs st → k ≠ MEM_FAIL_TO_FIND →
  ptr (storage st k) = p → (∀ j, 0 <= j < k → ptr (storage st j) ≠ p) →
  result ≠ NULL →
  ∃ st', memdebug_realloc p n line file result st = Returned result st' ∧
         num_allocs st' = num_allocs st ∧
         storage st' k = mkMemAlloc result n line file ∧
         (∀ j, j ≠ k → storage st' j = storage st j).
Proof.
  intros Hm Ha Hcap Hk Hne Hp Hno Hres.
  assert (alloc_find_index p (set_mutex true st) = Returned k (set_mutex true st)) as Hfind.
  { apply alloc_find_index_found; [done|exact (proj2 Hcap)|done..]. }
  unfold memdebug_realloc, bind, mutex_lock. rewrite Hm, Hfind.
  apply Z.eqb_neq in Hne, Hres, Ha. rewrite Hne, andb_false_r.
  unfold ret, real_realloc. rewrite Hres.
  unfold when, PRINT_MEMALLOCS, printf, alloc_update, store, mutex_unlock.
  cbn [allocs allocs_cap add_out add_call set_mutex]. rewrite Ha.
  destruct (0 <=? k) eqn:E1; [|lia]. destruct (k <? allocs_cap st) eqn:E2; [|lia].
  cbn [andb]. eexists. split_and!; [reflexivity|reflexivity| |].
  - cbn [storage set_mutex set_storage add_out add_call]. by rewrite Z.eqb_refl.
  - intros j Hj. cbn [storage set_mutex set_storage add_out add_call].
    apply Z.eqb_neq in Hj. by rewrite Hj.
Qed.

(** C10.  [alloc_find_index] returns the smallest index whose record
    holds the pointer and [MEM_FAIL_TO_FIND = 4294967295] when there is
    none; so when the first record of a non-null address sits at index
    4294967295, the search result is the sentinel, and both [free] and
    [realloc] of that live address end in the invalid-pointer panic. *)
Theorem lookup_sentinel_collision st p n line file result :
  allocs st ≠ NULL → 0 <= num_allocs st <= allocs_cap st →
  (∀ k, 0 <= k < num_allocs st → ptr (storage st k) = p →
        (∀ j, 0 <= j < k → ptr (storage st j) ≠ p) →
        alloc_find_index p st = Returned k st) ∧
  ((∀ j, 0 <= j < num_allocs st → ptr (storage st j) ≠ p) →
   alloc_find_index p st = Returned MEM_FAIL_TO_FIND st) ∧
  MEM_FAIL_TO_FIND = 4294967295 ∧
  (MEM_FAIL_TO_FIND < num_allocs st → alloc_mutex st = false → p ≠ NULL →
   ptr (storage st MEM_FAIL_TO_FIND) = p →
   (∀ j, 0 <= j < MEM_FAIL_TO_FIND → ptr (storage st j) ≠ p) →
   alloc_find_index p st = Returned MEM_FAIL_TO_FIND st ∧
   memdebug_free p line file st =
     Exited MEMPANIC_EXIT_STATUS
       (add_out (out_panic "Tried to free() an invalid pointer." p line file)
                (set_mutex true st)) ∧
   memdebug_realloc p n line file result st =
     Exited MEMPANIC_EXIT_STATUS
       (add_out (out_panic "Tried to realloc() an invalid pointer." p line file)
                (set_mutex true st))).
Proof.
  intros Ha Hcap. split_and!.
  - intros k Hk Hp Hno. apply alloc_find_index_found; [done|lia|done..].
  - intros Hno. by apply alloc_find_index_absent.
  - reflexivity.
  - intros Hbig Hm Hp Hat Hno.
    assert (∀ s, allocs s = allocs st → storage s = storage st →
                 num_allocs s = num_allocs st → allocs_cap s = allocs_cap st →
                 alloc_find_index p s = Returned MEM_FAIL_TO_FIND s) as Hfind.
    { intros s E1 E2 E3 E4. apply alloc_find_index_found.
      - by rewrite E1.
      - rewrite E3, E4. lia.
      - rewrite E3. unfold MEM_FAIL_TO_FIND in *. lia.
      - by rewrite E2.
      - intros j Hj. rewrite E2. by apply Hno. }
    split_and!.
    + by apply Hfind.
    + apply memdebug_free_panics; [done..|]. by apply Hfind.
    + apply memdebug_realloc_panics; [done..|]. by apply Hfind.
Qed.

Lemma lookup_sentinel_collision_witness :
  alloc_find_index 68719476736 crowded = Returned MEM_FAIL_TO_FIND crowded ∧
  memdebug_free 68719476736 40 "test.c" crowded =
    Exited MEMPANIC_EXIT_STATUS
      (add_out (out_panic "Tried to free() an invalid pointer." 68719476736 40 "test.c")
               (set_mutex true crowded)) ∧
  memdebug_realloc 68719476736 10 40 "test.c" 32 crowded =
    Exited MEMPANIC_EXIT_STATUS
      (add_out (out_panic "Tried to realloc() an invalid pointer." 68719476736 40 "test.c")
               (set_mutex true crowded)).
Proof.
  apply (lookup_sentinel_collision crowded 68719476736 10 40 "test.c" 32).
  - unfold crowded, NULL. simpl. lia.
  - unfold crowded. simpl. lia.
  - unfold crowded, MEM_FAIL_TO_FIND. simpl. lia.
  - reflexivity.
  - unfold NULL. lia.
  - reflexivity.
  - unfold crowded, MEM_FAIL_TO_FIND. simpl. intros j Hj. lia.
Defined.

End ArrProofs.

(** * Where the two versions leave the specification *)

Local Open Scope c_scope.

(** C1.  The live count after a run without misuse should be the number
    of allocations (a resize of null counting as one) minus the number of
    releases.  The code does not deliver that once a null address takes
    part.  Hash-map version, from the initial state: after
    [realloc(NULL, 16)] alone the count is 0, not 1; after [malloc(1)]
    and [free(NULL)] the count is 0 while the record of the allocation is
    still in the table.  Array version: after [malloc(20); malloc(25);
    free(NULL)] the count is 1, not 2. *)
Theorem count_with_null_operations :
  let resize_null := [Hash.op_realloc NULL 16 27 "main" "test.c" 8 0] in
  let release_null := [Hash.op_malloc 1 26 "main" "test.c" 8 0;
                       Hash.op_free NULL 28 "main" "test.c"] in
  (ending_of (Hash.run resize_null Hash.initial) = Returns ∧
   Hash.expected_count resize_null = 1 ∧
   Hash.num_allocs (final_state (Hash.run resize_null Hash.initial)) = 0) ∧
  (ending_of (Hash.run release_null Hash.initial) = Returns ∧
   Hash.expected_count release_null = 1 ∧
   Hash.num_allocs (final_state (Hash.run release_null Hash.initial)) = 0 ∧
   Hash.addresses (final_state (Hash.run release_null Hash.initial)) = [8]) ∧
  (∀ grow_cap,
     Arr.num_allocs (Arr.two_allocs grow_cap) = 2 ∧
     ending_of (Arr.memdebug_free NULL 33 "test.c" (Arr.two_allocs grow_cap)) = Returns ∧
     Arr.num_allocs (final_state (Arr.memdebug_free NULL 33 "test.c" (Arr.two_allocs grow_cap))) = 1).
Proof. vm_compute. repeat split. Qed.

(** C2.  Releasing the null address should change nothing.  In the
    hash-map version [free(NULL)] on the initial state comes back with
    [num_allocs] wrapped from 0 to [2^64 - 1].  In the array version
    [free(NULL)] after [malloc(20); malloc(25)] comes back with the count
    at 1 and the record of the second allocation (address 48, found at
    index 1 before) no longer found. *)
Theorem release_null_changes_the_count :
  (ending_of (Hash.memdebug_free NULL 23 "main" "test.c" Hash.initial) = Returns ∧
   Hash.num_allocs Hash.initial = 0 ∧
   Hash.num_allocs (final_state (Hash.memdebug_free NULL 23 "main" "test.c" Hash.initial))
     = 18446744073709551615) ∧
  (∀ grow_cap,
     let st := Arr.two_allocs grow_cap in
     let st' := final_state (Arr.memdebug_free NULL 33 "test.c" st) in
     ending_of (Arr.memdebug_free NULL 33 "test.c" st) = Returns ∧
     Arr.num_allocs st = 2 ∧ Arr.num_allocs st' = 1 ∧
     value_of (Arr.alloc_find_index 48 st) = Some 1 ∧
     value_of (Arr.alloc_find_index 48 st') = Some Arr.MEM_FAIL_TO_FIND).
Proof. vm_compute. repeat split. Qed.

(** C4.  A null result of the real allocator should end the process with
    [OOM_EXIT_STATUS] after the heap dump.  In the hash-map version that
    happens for [malloc], but [realloc] reaches [OOM] with the mutex held
    and [print_heap] locks it again: for a null and for a live address
    the call prints the out-of-memory line and then neither dumps the
    heap nor exits.  The array version, whose [print_heap] takes no lock,
    exits with [OOM_EXIT_STATUS]. *)
Theorem resize_out_of_memory_never_exits :
  ending_of (Hash.memdebug_realloc NULL 16 36 "main" "test.c" NULL 0 Hash.initial) = Deadlocks ∧
  Hash.stdout (final_state (Hash.memdebug_realloc NULL 16 36 "main" "test.c" NULL 0 Hash.initial))
    = [Hash.out_oom 36 "main" "test.c" 16] ∧
  ending_of (Hash.memdebug_realloc 8 16 36 "main" "test.c" NULL 0 Hash.one_alloc) = Deadlocks ∧
  ending_of (Hash.memdebug_malloc 16 36 "main" "test.c" NULL 0 Hash.initial)
    = Exits OOM_EXIT_STATUS ∧
  ending_of (Arr.memdebug_realloc NULL 16 36 "test.c" NULL Arr.initial) = Exits OOM_EXIT_STATUS.
Proof. vm_compute. repeat split. Qed.

(** C5.  A resize of the null address should behave like an allocation
    and raise the live count by one.  Hash-map version, initial state:
    [malloc(16)] leaves the count at 1, [realloc(NULL, 16)] leaves it at
    0.  Array version: [realloc(NULL, 10)] writes the new record at index
    [MEM_FAIL_TO_FIND], outside the tracking array (through the null
    array pointer when nothing was tracked yet), and never gets to
    count. *)
Theorem resize_null_is_not_allocate :
  (Hash.num_allocs Hash.initial = 0 ∧
   ending_of (Hash.memdebug_malloc 16 27 "main" "test.c" 8 0 Hash.initial) = Returns ∧
   Hash.num_allocs (final_state (Hash.memdebug_malloc 16 27 "main" "test.c" 8 0 Hash.initial)) = 1 ∧
   ending_of (Hash.memdebug_realloc NULL 16 27 "main" "test.c" 8 0 Hash.initial) = Returns ∧
   Hash.num_allocs (final_state (Hash.memdebug_realloc NULL 16 27 "main" "test.c" 8 0 Hash.initial)) = 0) ∧
  (∀ grow_cap,
     ending_of (Arr.memdebug_realloc NULL 10 27 "test.c" 80 (Arr.two_allocs grow_cap))
       = Faults OutOfBounds) ∧
  ending_of (Arr.memdebug_realloc NULL 10 27 "test.c" 80 Arr.initial) = Faults NullDeref.
Proof. vm_compute. repeat split. Qed.

(** C6.  A resize of a live address should keep the live count and leave
    the returned address resolving.  The hash-map version does so.  The
    array version does not when the record of the address sits at index
    4294967295, the value [alloc_find_index] also returns for an address
    it did not find: in a table of 2^32 records whose last record tracks
    the address 68719476736, [realloc] of that address, whatever size is
    asked and whatever the real [realloc] would return, prints the
    invalid-pointer panic and exits with [MEMPANIC_EXIT_STATUS]. *)
Theorem resize_at_the_sentinel_index_panics :
  Arr.alloc_mutex Arr.crowded = false ∧
  Arr.allocs Arr.crowded ≠ NULL ∧
  Arr.MEM_FAIL_TO_FIND < Arr.num_allocs Arr.crowded ∧
  Arr.num_allocs Arr.crowded <= Arr.allocs_cap Arr.crowded ∧
  Arr.ptr (Arr.storage Arr.crowded Arr.MEM_FAIL_TO_FIND) = 68719476736 ∧
  ∀ n result,
    Arr.memdebug_realloc 68719476736 n 40 "test.c" result Arr.crowded =
      Exited MEMPANIC_EXIT_STATUS
        (Arr.add_out
           (Arr.out_panic "Tried to realloc() an invalid pointer." 68719476736 40 "test.c")
           (Arr.set_mutex true Arr.crowded)).
Proof.
  split; [exact eq_refl|].
  split; [unfold Arr.crowded, NULL; cbn; lia|].
  split; [unfold Arr.crowded, Arr.MEM_FAIL_TO_FIND; cbn; lia|].
  split; [unfold Arr.crowded; cbn; lia|].
  split; [exact eq_refl|].
  intros n result. apply ArrProofs.memdebug_realloc_panics.
  - exact eq_refl.
  - unfold NULL. lia.
  - apply (ArrProofs.alloc_find_index_found 68719476736 Arr.MEM_FAIL_TO_FIND
             (Arr.set_mutex true Arr.crowded)).
    + unfold Arr.crowded, NULL. cbn. lia.
    + unfold Arr.crowded. cbn. lia.
    + unfold Arr.crowded, Arr.MEM_FAIL_TO_FIND. cbn. lia.
    + exact eq_refl.
    + unfold Arr.crowded, Arr.MEM_FAIL_TO_FIND. cbn. intros j Hj. lia.
Qed.

(** C7.  [alloc_remove] should return true only when a record with the
    address existed.  On the initial table, which holds no record,
    [alloc_remove(NULL)] returns true and counts [num_allocs] down from 0
    to [2^64 - 1]. *)
Theorem remove_null_reports_a_record :
  Hash.addresses Hash.initial = [] ∧
  value_of (Hash.alloc_remove NULL Hash.initial) = Some true ∧
  Hash.num_allocs (final_state (Hash.alloc_remove NULL Hash.initial)) = 18446744073709551615.
Proof. vm_compute. repeat split. Qed.

(** C9.  A failed allocation of tracking storage should end in the
    out-of-memory fault.  Hash-map version: the addresses 6560 and 41120
    share a bucket; when the real [malloc] returns null for the chain
    node of the second, [alloc_add] stores through that null pointer.
    Array version: the first [malloc] of the tracking array is not
    checked either and the record is stored through the null pointer,
    whereas the [realloc] that grows a full array is checked and ends in
    [OOM_EXIT_STATUS]. *)
Theorem chain_node_failure_is_not_checked :
  (Hash.ptr_hash 6560 = Hash.ptr_hash 41120 ∧
   ending_of ((Hash.memdebug_malloc 1 26 "main" "test.c" 6560 0;;;
               Hash.memdebug_malloc 1 27 "main" "test.c" 41120 NULL) Hash.initial)
     = Faults NullDeref) ∧
  (∀ grow_cap,
     ending_of (Arr.memdebug_malloc grow_cap 1 26 "test.c" 16 NULL Arr.initial)
       = Faults NullDeref ∧
     ending_of (Arr.memdebug_malloc grow_cap 1 26 "test.c" 80016 NULL Arr.full)
       = Exits OOM_EXIT_STATUS).
Proof. vm_compute. repeat split. Qed.

(** * More about the hash-map version *)

Module HashMore.
Import Hash HashProofs.

Local Arguments ptr_hash : simpl never.

(** ** The hash function *)

Lemma log_base_2_zero fuel : log_base_2 fuel 0 = None.
Proof. induction fuel as [|fuel IH]; [done|]. simpl. change (0 / 2) with 0. by rewrite IH. Qed.

Lemma log_base_2_log2 fuel : ∀ num,
  1 <= num < SIZE_MODULUS → Z.log2 num <= Z.of_nat fuel →
  log_base_2 fuel num = Some (Z.log2 num).
Proof.
  induction fuel as [|fuel IH]; intros num Hn Hf.
  - destruct (Z.eq_dec num 1) as [->|Hne]; [done|].
    pose proof (Z.log2_pos num). lia.
  - destruct (Z.eq_dec num 1) as [->|Hne]; [done|].
    cbn [log_base_2]. apply Z.eqb_neq in Hne as Hne'. rewrite Hne'.
    assert (Z.log2 (num / 2) = Z.log2 num - 1) as Hlog.
    { change 2 with (2 ^ 1). rewrite <- Z.shiftr_div_pow2 by lia.
      rewrite Z.log2_shiftr by lia. pose proof (Z.log2_pos num). lia. }
    assert (1 <= num / 2 < SIZE_MODULUS) as Hhalf.
    { split; [apply Z.div_le_lower_bound; lia|].
      apply Z.div_lt_upper_bound; lia. }
    rewrite (IH (num / 2)) by (done || lia). cbn. f_equal.
    rewrite Hlog. replace (1 + (Z.log2 num - 1)) with (Z.log2 num) by lia.
    apply wrap_small. pose proof (Z.log2_lt_lin num). pose proof (Z.log2_nonneg num). lia.
Qed.

(** X1.  [log_base_2] is the floor of the binary logarithm for every
    [size_t] from 1 on, given the recursion depth it needs; on 0 it
    recurses on [0 / 2 = 0] and comes back at no depth. *)
Theorem log_base_2_floor fuel num :
  1 <= num < SIZE_MODULUS → Z.log2 num <= Z.of_nat fuel →
  log_base_2 fuel num = Some (Z.log2 num) ∧
  (∀ depth, log_base_2 depth 0 = None).
Proof.
  intros Hn Hf. split; [by apply log_base_2_log2|]. apply log_base_2_zero.
Qed.

Lemma log_base_2_floor_witness :
  log_base_2 64 9 = Some (Z.log2 9) ∧ (∀ depth, log_base_2 depth 0 = None).
Proof.
  apply (log_base_2_floor 64 9).
  - unfold SIZE_MODULUS. lia.
  - simpl. lia.
Defined.

(** X2.  The bucket index [ptr_hash] computes is below [MAP_BUF_SIZE] for
    every pointer, so on a table of that many members [alloc_remove]
    always comes back and [alloc_add] never leaves the array. *)
Theorem bucket_index_in_bounds st p a node :
  length (allocs st) = Z.to_nat MAP_BUF_SIZE →
  0 <= ptr_hash p < MAP_BUF_SIZE ∧
  ending_of (alloc_remove p st) = Returns ∧
  ending_of (alloc_add a node st) ≠ Faults OutOfBounds.
Proof.
  intros Hl. split; [apply ptr_hash_range|]. split.
  - destruct (alloc_remove_total st p Hl) as (b & st' & ->). done.
  - rewrite alloc_add_member. cbv zeta.
    destruct (lookup_lt_is_Some_2 (allocs (inited st)) (Z.to_nat (ptr_hash (ptr a)))) as [m ->].
    { rewrite inited_length. by apply ptr_hash_lt_length. }
    by destruct (member_add a node m).
Qed.

Lemma bucket_index_in_bounds_witness :
  0 <= ptr_hash 18446744073709551615 < MAP_BUF_SIZE ∧
  ending_of (alloc_remove 18446744073709551615 initial) = Returns ∧
  ending_of (alloc_add (mkMemAlloc 18446744073709551615 1 1 "main" "test.c") 0 initial)
    ≠ Faults OutOfBounds.
Proof.
  apply (bucket_index_in_bounds initial).
  apply (tb_length _ table_ok_initial).
Defined.


(** ** Allocation and release *)

Lemma release_spec st p line func file :
  wf st → p ∈ addresses st →
  ∃ st' r, memdebug_free p line func file st = Returned tt st' ∧
           wf st' ∧ ptr r = p ∧
           records st ≡ₚ r :: records st' ∧
           (p ∉ addresses st') ∧
           num_allocs st' = wrap (num_allocs st - 1) ∧
           stdout st' = stdout st ++ [out_free p line func file] ∧
           ∃ calls, heap_calls st' = calls ++ [call_free p].
Proof.
  intros [W Hnd Hc Hm] Hin.
  assert (table_ok (set_mutex true st)) as W1 by (by apply (table_ok_frame st)).
  pose proof (addresses_nonnull _ _ W Hin) as Hp.
  destruct (alloc_remove_live _ _ W1 Hin) as [st1 R].
  destruct (alloc_remove_spec _ _ _ _ W1 R) as (Wr & Hn1 & _ & Ho & Hrec).
  destruct (alloc_remove_unique _ _ _ _ W1 Hnd R) as (Hnd1 & _ & Hgone).
  apply Z.eqb_neq in Hp as Hp'. rewrite Hp' in Hrec. simpl in Hrec.
  destruct Hrec as (r & Hr & Hperm).
  exists (add_out [out_free p line func file]
            (add_call (call_free p) (set_mutex false st1))), r.
  split_and!.
  - rewrite memdebug_free_eq, R by done. cbn [lift]. by rewrite Hp'.
  - split.
    + by apply (table_ok_frame st1).
    + exact Hnd1.
    + cbn [num_allocs add_out add_call set_mutex]. rewrite Hn1. apply wrap_range.
    + done.
  - done.
  - exact Hperm.
  - by apply Hgone.
  - exact Hn1.
  - cbn [stdout add_out add_call set_mutex]. by rewrite Ho.
  - by exists (heap_calls st1).
Qed.

(** X3.  An allocation the real [malloc] serves with a fresh address is
    registered: the call returns that address, the table gains exactly
    the record {address, size, call site}, [num_allocs] goes up by one,
    the address resolves, and the state is well formed again. *)
Theorem allocate_registers_record st n line func file result node :
  wf st → result ≠ NULL → result ∉ addresses st → node ≠ NULL →
  ∃ st', memdebug_malloc n line func file result node st = Returned result st' ∧
         wf st' ∧
         records st' ≡ₚ mkMemAlloc result n line func file :: records st ∧
         num_allocs st' = wrap (num_allocs st + 1) ∧
         resolves result st' = true.
Proof.
  intros W Hres Hfresh Hnode.
  destruct (malloc_spec st n line func file result node W Hres Hfresh Hnode)
    as (st' & Hst & W' & Hperm & Hn).
  exists st'. split_and!; try done.
  destruct (alloc_remove_live st' result (wf_table _ W')) as [s Hs].
  - unfold addresses. rewrite Hperm. simpl. by left.
  - unfold resolves. by rewrite Hs.
Qed.

Lemma one_alloc_addresses q : q ∈ addresses one_alloc → q = 8.
Proof.
  destruct (malloc_spec initial 1 26 "main" "test.c" 8 4096 wf_initial)
    as (st' & Hst & _ & Hperm & _).
  - unfold NULL. lia.
  - unfold addresses. rewrite records_initial. apply not_elem_of_nil.
  - unfold NULL. lia.
  - assert (one_alloc = st') as -> by (unfold one_alloc; by rewrite Hst).
    unfold addresses. rewrite Hperm, records_initial.
    intros Hin. by apply list_elem_of_singleton in Hin.
Qed.

Lemma allocate_registers_record_witness :
  ∃ st', memdebug_malloc 20 31 "main" "test.c" 16 4096 one_alloc = Returned 16 st' ∧
         wf st' ∧
         records st' ≡ₚ mkMemAlloc 16 20 31 "main" "test.c" :: records one_alloc ∧
         num_allocs st' = wrap (num_allocs one_alloc + 1) ∧
         resolves 16 st' = true.
Proof.
  apply (allocate_registers_record one_alloc 20 31 "main" "test.c" 16 4096).
  - apply one_alloc_spec.
  - unfold NULL. lia.
  - intros Hin. apply one_alloc_addresses in Hin. lia.
  - unfold NULL. lia.
Defined.

(** X4.  Releasing a live address takes exactly its record out of the
    table, counts [num_allocs] down by one, hands the address to the real
    [free] and prints the line of the call; the address has no record
    afterwards. *)
Theorem release_removes_record st p line func file :
  wf st → p ∈ addresses st →
  ∃ st' r, memdebug_free p line func file st = Returned tt st' ∧
           wf st' ∧ ptr r = p ∧
           records st ≡ₚ r :: records st' ∧
           (p ∉ addresses st') ∧
           num_allocs st' = wrap (num_allocs st - 1) ∧
           stdout st' = stdout st ++ [out_free p line func file] ∧
           ∃ calls, heap_calls st' = calls ++ [call_free p].
Proof. apply release_spec. Qed.

Lemma release_removes_record_witness :
  ∃ st' r, memdebug_free 8 28 "main" "test.c" one_alloc = Returned tt st' ∧
           wf st' ∧ ptr r = 8 ∧
           records one_alloc ≡ₚ r :: records st' ∧
           (8 ∉ addresses st') ∧
           num_allocs st' = wrap (num_allocs one_alloc - 1) ∧
           stdout st' = stdout one_alloc ++ [out_free 8 28 "main" "test.c"] ∧
           ∃ calls, heap_calls st' = calls ++ [call_free 8].
Proof.
  apply (release_removes_record one_alloc 8 28 "main" "test.c");
    apply one_alloc_spec.
Defined.

(** X5.  A second release of the same address, or a resize of it after
    the release, is caught: the first [free] comes back, the next call on
    that address ends the process with [MEMPANIC_EXIT_STATUS]. *)
Theorem double_free_is_detected st p n line func file result node :
  wf st → p ∈ addresses st →
  ∃ st', memdebug_free p line func file st = Returned tt st' ∧
         ending_of (memdebug_free p line func file st') = Exits MEMPANIC_EXIT_STATUS ∧
         ending_of (memdebug_realloc p n line func file result node st')
           = Exits MEMPANIC_EXIT_STATUS.
Proof.
  intros W Hin. pose proof (addresses_nonnull _ _ (wf_table _ W) Hin) as Hp.
  destruct (release_spec st p line func file W Hin)
    as (st' & r & Hst & W' & _ & _ & Hgone & _).
  exists st'. split; [done|].
  assert (alloc_remove p (set_mutex true st')
          = Returned false (inited (set_mutex true st'))) as R.
  { apply alloc_remove_absent; [|done|exact Hgone]. apply (tb_length _ (wf_table _ W')). }
  apply Z.eqb_neq in Hp. split.
  - rewrite memdebug_free_eq, R by apply (wf_mutex _ W'). cbn [lift]. by rewrite Hp.
  - rewrite memdebug_realloc_eq, R by apply (wf_mutex _ W'). cbn [lift]. by rewrite Hp.
Qed.

Lemma double_free_is_detected_witness :
  ∃ st', memdebug_free 8 28 "main" "test.c" one_alloc = Returned tt st' ∧
         ending_of (memdebug_free 8 28 "main" "test.c" st') = Exits MEMPANIC_EXIT_STATUS ∧
         ending_of (memdebug_realloc 8 10 28 "main" "test.c" 16 0 st')
           = Exits MEMPANIC_EXIT_STATUS.
Proof.
  apply (double_free_is_detected one_alloc 8 10 28 "main" "test.c" 16 0);
    apply one_alloc_spec.
Defined.

(** X6.  Allocating and then releasing the address just obtained brings
    the registry back: the same records and the same [num_allocs] as
    before the two calls. *)
Theorem allocate_then_release st n line func file result node :
  wf st → result ≠ NULL → result ∉ addresses st → node ≠ NULL →
  ∃ st1 st2,
    memdebug_malloc n line func file result node st = Returned result st1 ∧
    memdebug_free result line func file st1 = Returned tt st2 ∧
    records st2 ≡ₚ records st ∧
    num_allocs st2 = num_allocs st ∧
    wf st2.
Proof.
  intros W Hres Hfresh Hnode.
  destruct (malloc_spec st n line func file result node W Hres Hfresh Hnode)
    as (st1 & Hst1 & W1 & Hperm1 & Hn1).
  assert (result ∈ addresses st1) as Hin.
  { unfold addresses. rewrite Hperm1. simpl. by left. }
  destruct (release_spec st1 result line func file W1 Hin)
    as (st2 & r & Hst2 & W2 & Hr & Hperm2 & Hgone & Hn2 & _).
  exists st1, st2. split_and!; try done.
  - (* the record that left is the one that came *)
    assert (NoDup (ptr <$> (mkMemAlloc result n line func file :: records st))) as Hnd.
    { rewrite <- Hperm1. apply (wf_unique _ W1). }
    rewrite Hperm1 in Hperm2.
    assert (r ∈ mkMemAlloc result n line func file :: records st) as Hrin.
    { rewrite Hperm2. by left. }
    apply elem_of_cons in Hrin as [->|Hrin].
    + by apply Permutation_cons_inv in Hperm2.
    + exfalso. apply Hfresh. unfold addresses. rewrite <- Hr.
      by apply (list_elem_of_fmap_2 ptr).
  - rewrite Hn2, Hn1. unfold Z.sub. rewrite wrap_wrap_add.
    replace (num_allocs st + 1 + - (1)) with (num_allocs st) by lia.
    apply wrap_small. apply (wf_count _ W).
Qed.

Lemma allocate_then_release_witness :
  ∃ st1 st2,
    memdebug_malloc 1 26 "main" "test.c" 8 4096 initial = Returned 8 st1 ∧
    memdebug_free 8 26 "main" "test.c" st1 = Returned tt st2 ∧
    records st2 ≡ₚ records initial ∧
    num_allocs st2 = num_allocs initial ∧
    wf st2.
Proof.
  apply (allocate_then_release initial 1 26 "main" "test.c" 8 4096).
  - apply wf_initial.
  - unfold NULL. lia.
  - unfold addresses. rewrite records_initial. apply not_elem_of_nil.
  - unfold NULL. lia.
Defined.


(** ** The heap dump *)

Lemma print_heap_spec st :
  table_ok st → alloc_mutex st = false →
  ∃ st', print_heap st = Returned tt st' ∧
         stdout st' = stdout st ++ [out_heap_banner]
                      ++ map heap_line (records st)
                      ++ [out_heap_total (total_size (records st)) (num_allocs st)] ∧
         allocs st' = allocs st ∧ num_allocs st' = num_allocs st ∧
         alloc_mutex st' = false ∧ heap_calls st' = heap_calls st.
Proof.
  intros W Hm.
  assert (∃ st', print_heap st = Returned tt st' ∧
            stdout st' = stdout st ++ [out_heap_banner]
                      ++ map heap_line (enumerate (inited st))
                      ++ [out_heap_total (total_size (enumerate (inited st))) (num_allocs st)] ∧
            allocs st' = allocs (inited st) ∧ num_allocs st' = num_allocs st ∧
            alloc_mutex st' = false ∧ heap_calls st' = heap_calls st)
    as (st' & Hst & Hout & Ha & Hn & Hmu & Hc).
  { unfold print_heap, bind, printf, mutex_lock, mutex_unlock.
    rewrite Hm, ensure_init_eq. eexists. split; [reflexivity|].
    unfold enumerate, inited. destruct (memallocs_initialized st) eqn:E;
      cbn [memallocs_initialized set_mutex add_out]; rewrite E;
      cbn [stdout allocs num_allocs alloc_mutex heap_calls add_out set_mutex
           set_initialized set_allocs];
      rewrite <- !app_assoc; done. }
  exists st'. rewrite Hout, Ha.
  rewrite (enumerate_records (inited st)) by (by apply table_ok_inited).
  rewrite (records_same st (inited st)) by (by apply inited_allocs).
  rewrite (inited_allocs st W). done.
Qed.

(** X7.  [print_heap] on a state between two calls prints the banner, one
    line per live record and the closing line with the sum of their
    sizes and [num_allocs]; it changes neither the table nor the count
    and gives the mutex back. *)
Theorem heap_dump_lists_every_record st :
  table_ok st → alloc_mutex st = false →
  ∃ st', print_heap st = Returned tt st' ∧
         stdout st' = stdout st ++ [out_heap_banner]
                      ++ map heap_line (records st)
                      ++ [out_heap_total (total_size (records st)) (num_allocs st)] ∧
         allocs st' = allocs st ∧ num_allocs st' = num_allocs st ∧
         alloc_mutex st' = false.
Proof.
  intros W Hm. destruct (print_heap_spec st W Hm) as (st' & H1 & H2 & H3 & H4 & H5 & _).
  by exists st'.
Qed.

Lemma heap_dump_lists_every_record_witness :
  ∃ st', print_heap one_alloc = Returned tt st' ∧
         stdout st' = stdout one_alloc ++ [out_heap_banner]
                      ++ map heap_line (records one_alloc)
                      ++ [out_heap_total (total_size (records one_alloc))
                                         (num_allocs one_alloc)] ∧
         allocs st' = allocs one_alloc ∧ num_allocs st' = num_allocs one_alloc ∧
         alloc_mutex st' = false.
Proof.
  apply (heap_dump_lists_every_record one_alloc).
  - apply wf_table. apply one_alloc_spec.
  - apply wf_mutex. apply one_alloc_spec.
Defined.

(** X8.  When the real [malloc] returns null, [memdebug_malloc] prints
    the out-of-memory line followed by the dump of every live record and
    ends the process with [OOM_EXIT_STATUS]; nothing is registered. *)
Theorem allocate_out_of_memory st n line func file node :
  table_ok st → alloc_mutex st = false →
  ∃ st', memdebug_malloc n line func file NULL node st = Exited OOM_EXIT_STATUS st' ∧
         stdout st' = stdout st ++ [out_oom line func file n; out_heap_banner]
                      ++ map heap_line (records st)
                      ++ [out_heap_total (total_size (records st)) (num_allocs st)] ∧
         records st' = records st ∧ num_allocs st' = num_allocs st.
Proof.
  intros W Hm. rewrite memdebug_malloc_eq by done. cbv zeta.
  change (NULL =? NULL) with true. cbv iota.
  set (st1 := add_call (call_malloc n NULL) st).
  assert (table_ok st1) as W1 by (by apply (table_ok_frame st)).
  destruct (OOM_unlocked (A:=unit) line func file n st1 Hm) as (st' & -> & Hout & Ha & Hn).
  exists st'. split_and!; [done| | |exact Hn].
  - rewrite Hout.
    rewrite (enumerate_records (inited st1)) by (by apply table_ok_inited).
    rewrite (records_same st1 (inited st1)) by (by apply inited_allocs).
    reflexivity.
  - rewrite (records_same (inited st1) st') by done.
    by rewrite (records_same st1 (inited st1)) by (by apply inited_allocs).
Qed.

Lemma allocate_out_of_memory_witness :
  ∃ st', memdebug_malloc 16 36 "main" "test.c" NULL 0 one_alloc
           = Exited OOM_EXIT_STATUS st' ∧
         stdout st' = stdout one_alloc ++ [out_oom 36 "main" "test.c" 16; out_heap_banner]
                      ++ map heap_line (records one_alloc)
                      ++ [out_heap_total (total_size (records one_alloc))
                                         (num_allocs one_alloc)] ∧
         records st' = records one_alloc ∧ num_allocs st' = num_allocs one_alloc.
Proof.
  apply (allocate_out_of_memory one_alloc 16 36 "main" "test.c" 0).
  - apply wf_table. apply one_alloc_spec.
  - apply wf_mutex. apply one_alloc_spec.
Defined.


(** ** Invariants of a run *)

Lemma reachable_one_alloc : reachable one_alloc.
Proof.
  apply (reachable_step initial (op_malloc 1 26 "main" "test.c" 8 4096)).
  - apply reachable_initial.
  - unfold no_misuse, addresses. rewrite records_initial. apply not_elem_of_nil.
  - destruct (malloc_spec initial 1 26 "main" "test.c" 8 4096 wf_initial)
      as (st' & Hst & _).
    + unfold NULL. lia.
    + unfold addresses. rewrite records_initial. apply not_elem_of_nil.
    + unfold NULL. lia.
    + unfold exec, bind, one_alloc. rewrite Hst. reflexivity.
Qed.

(** X9.  Between two calls of a run without misuse the mutex is free, the
    counter is a [size_t], an empty inline slot never has a chain, every
    record has a non-null address and sits in the bucket its address
    hashes to; hence the walk of [print_heap], which stops at the first
    null pointer of a bucket, visits every record. *)
Theorem reachable_table_shape st :
  reachable st →
  alloc_mutex st = false ∧
  0 <= num_allocs st < SIZE_MODULUS ∧
  length (allocs st) = Z.to_nat MAP_BUF_SIZE ∧
  (∀ i m, allocs st !! i = Some m →
     (ptr (alloc m) = NULL → next m = []) ∧
     (∀ r, r ∈ bucket_records m → ptr r ≠ NULL ∧ ptr_hash (ptr r) = Z.of_nat i)) ∧
  enumerate st = records st.
Proof.
  intros Hr. destruct (reachable_wf st Hr) as [W _ Hc Hm].
  split; [done|]. split; [done|]. split; [apply (tb_length _ W)|]. split.
  - intros i m Hm'. destruct (tb_bucket _ W _ _ Hm') as [H1 H2].
    split; [done|]. intros r Hin. rewrite Forall_forall in H2. by apply H2.
  - by apply enumerate_records.
Qed.

Lemma reachable_table_shape_witness :
  alloc_mutex one_alloc = false ∧
  0 <= num_allocs one_alloc < SIZE_MODULUS ∧
  length (allocs one_alloc) = Z.to_nat MAP_BUF_SIZE ∧
  (∀ i m, allocs one_alloc !! i = Some m →
     (ptr (alloc m) = NULL → next m = []) ∧
     (∀ r, r ∈ bucket_records m → ptr r ≠ NULL ∧ ptr_hash (ptr r) = Z.of_nat i)) ∧
  enumerate one_alloc = records one_alloc.
Proof. apply (reachable_table_shape one_alloc). apply reachable_one_alloc. Defined.

(** X10.  For a non-null address [alloc_remove] is a faithful lookup and
    removal: it returns true exactly when the address has a record; then
    one record with that address leaves the table and [num_allocs] goes
    down by one; otherwise table and count stay as they are. *)
Theorem remove_non_null_address st p :
  table_ok st → p ≠ NULL →
  ∃ found st',
    alloc_remove p st = Returned found st' ∧
    (found = true ↔ p ∈ addresses st) ∧
    resolves p st = found ∧
    if found
    then ∃ r, ptr r = p ∧ records st ≡ₚ r :: records st' ∧
              num_allocs st' = wrap (num_allocs st - 1)
    else allocs st' = allocs st ∧ num_allocs st' = num_allocs st.
Proof.
  intros W Hp. destruct (alloc_remove_nonnull st p W Hp) as [Hin Hout].
  destruct (decide (p ∈ addresses st)) as [Hl|Hno].
  - destruct (Hin Hl) as (st' & r & R & Hr & Hperm & Hn).
    exists true, st'. split_and!; [done|done|by unfold resolves; rewrite R|by exists r].
  - destruct (Hout Hno) as (R & Ha & Hn).
    exists false, (inited st). split_and!; [done| |by unfold resolves; rewrite R|done|done].
    split; [done|]. intros Hl. by destruct Hno.
Qed.

Lemma remove_non_null_address_witness :
  ∃ found st',
    alloc_remove 8 one_alloc = Returned found st' ∧
    (found = true ↔ 8 ∈ addresses one_alloc) ∧
    resolves 8 one_alloc = found ∧
    if found
    then ∃ r, ptr r = 8 ∧ records one_alloc ≡ₚ r :: records st' ∧
              num_allocs st' = wrap (num_allocs one_alloc - 1)
    else allocs st' = allocs one_alloc ∧ num_allocs st' = num_allocs one_alloc.
Proof.
  apply (remove_non_null_address one_alloc 8).
  - apply wf_table. apply one_alloc_spec.
  - unfold NULL. lia.
Defined.



Lemma run_one_alloc :
  run [op_malloc 1 26 "main" "test.c" 8 4096] initial = Returned tt one_alloc.
Proof.
  destruct (malloc_spec initial 1 26 "main" "test.c" 8 4096 wf_initial)
    as (st' & Hst & _).
  - unfold NULL. lia.
  - unfold addresses. rewrite records_initial. apply not_elem_of_nil.
  - unfold NULL. lia.
  - unfold run, exec, bind, one_alloc. rewrite Hst. reflexivity.
Qed.

(** X12.  Whatever run of the three wrappers comes back without having
    been handed a null address, [num_allocs] has moved by the number of
    its [malloc] calls minus the number of its [free] calls (modulo
    [2^64]); resizes do not count. *)
Theorem count_of_null_free_runs ops st st' :
  alloc_mutex st = false → 0 <= num_allocs st < SIZE_MODULUS →
  forallb (λ o, negb (touches_null o)) ops = true →
  run ops st = Returned tt st' →
  num_allocs st' = wrap (num_allocs st + expected_count ops).
Proof. apply run_count. Qed.

Lemma count_of_null_free_runs_witness :
  num_allocs one_alloc
  = wrap (num_allocs initial + expected_count [op_malloc 1 26 "main" "test.c" 8 4096]).
Proof.
  apply (count_of_null_free_runs [op_malloc 1 26 "main" "test.c" 8 4096] initial one_alloc).
  - exact eq_refl.
  - apply (wf_count _ wf_initial).
  - exact eq_refl.
  - apply run_one_alloc.
Defined.

End HashMore.

(** * More about the array version *)

Module ArrMore.
Import Arr ArrProofs.

(** ** The tracked records as a list *)

Lemma tracked_length st : length (tracked st) = Z.to_nat (num_allocs st).
Proof. unfold tracked. by rewrite length_map, length_seq. Qed.

Lemma tracked_lookup st (i : nat) :
  (i < Z.to_nat (num_allocs st))%nat →
  tracked st !! i = Some (storage st (Z.of_nat i)).
Proof.
  intros Hi. unfold tracked. change map with (@fmap list _).
  rewrite list_lookup_fmap, lookup_seq_lt by done. done.
Qed.

Lemma tracked_lookup_ge st (i : nat) :
  (Z.to_nat (num_allocs st) <= i)%nat → tracked st !! i = None.
Proof. intros Hi. apply lookup_ge_None. by rewrite tracked_length. Qed.

Lemma tracked_ext st st' :
  num_allocs st' = num_allocs st →
  (∀ j, 0 <= j < num_allocs st → storage st' j = storage st j) →
  tracked st' = tracked st.
Proof.
  intros Hn Hs. apply list_eq. intros i.
  destruct (decide (i < Z.to_nat (num_allocs st))%nat) as [Hi|Hi].
  - rewrite !tracked_lookup by (rewrite ?Hn; done). f_equal. apply Hs. lia.
  - rewrite !tracked_lookup_ge by (rewrite ?Hn; lia). done.
Qed.

Lemma tracked_absent st p :
  0 <= num_allocs st →
  p ∉ map ptr (tracked st) ↔ (∀ j, 0 <= j < num_allocs st → ptr (storage st j) ≠ p).
Proof.
  intros Hn. split.
  - intros Hno j Hj Hp. apply Hno. rewrite <- Hp.
    apply (list_elem_of_fmap_2 ptr). apply list_elem_of_lookup.
    exists (Z.to_nat j). rewrite tracked_lookup by lia. f_equal. f_equal. lia.
  - intros Hall Hin. apply list_elem_of_fmap in Hin as (r & -> & Hr).
    apply list_elem_of_lookup in Hr as [i Hi].
    pose proof (lookup_lt_Some _ _ _ Hi) as Hlt. rewrite tracked_length in Hlt.
    rewrite tracked_lookup in Hi by done. injection Hi as <-.
    apply (Hall (Z.of_nat i)); [lia|done].
Qed.

Lemma tracked_push st st' a :
  0 <= num_allocs st →
  num_allocs st' = num_allocs st + 1 →
  storage st' (num_allocs st) = a →
  (∀ j, 0 <= j < num_allocs st → storage st' j = storage st j) →
  tracked st' = tracked st ++ [a].
Proof.
  intros Hn Hn' Ha Hs. apply list_eq. intros i.
  destruct (decide (i < Z.to_nat (num_allocs st))%nat) as [Hi|Hi].
  - rewrite lookup_app_l by (by rewrite tracked_length).
    rewrite !tracked_lookup by lia. f_equal. apply Hs. lia.
  - rewrite lookup_app_r by (rewrite tracked_length; lia). rewrite tracked_length.
    destruct (decide (i = Z.to_nat (num_allocs st))) as [->|Hne].
    + rewrite tracked_lookup by lia. rewrite Nat.sub_diag. cbn.
      f_equal. rewrite <- Ha. f_equal. lia.
    + rewrite tracked_lookup_ge by lia.
      destruct (i - Z.to_nat (num_allocs st))%nat eqn:E; [lia|done].
Qed.


(** ** [alloc_push] in closed form *)

Lemma store_ok st i a :
  allocs st ≠ NULL → 0 <= i < allocs_cap st →
  store i a st = Returned tt (set_storage (put i a (storage st)) st).
Proof.
  intros Ha Hi. unfold store. apply Z.eqb_neq in Ha. rewrite Ha.
  destruct (0 <=? i) eqn:E1; [|lia]. destruct (i <? allocs_cap st) eqn:E2; [done|lia].
Qed.

Lemma alloc_push_room grow_cap a fresh st :
  allocs st ≠ NULL → 0 <= num_allocs st < allocs_cap st →
  alloc_push grow_cap a fresh st =
    Returned tt (set_num_allocs (wrap (num_allocs st + 1))
                   (set_storage (put (num_allocs st) a (storage st)) st)).
Proof.
  intros Ha Hn. unfold alloc_push, bind.
  destruct (num_allocs st >=? allocs_cap st) eqn:E; [lia|].
  by rewrite store_ok.
Qed.


Lemma alloc_push_grow grow_cap a fresh st :
  0 < allocs_cap st → allocs_cap st <= num_allocs st < grow_cap (allocs_cap st) →
  fresh ≠ NULL →
  alloc_push grow_cap a fresh st =
    Returned tt
      (set_num_allocs (wrap (num_allocs st + 1))
         (set_storage (put (num_allocs st) a (storage st))
            (set_allocs fresh
               (set_allocs_cap (grow_cap (allocs_cap st))
                  (add_call (call_realloc (allocs st)
                               (wrap (sizeof_MemAlloc * grow_cap (allocs_cap st))) fresh)
                            st))))).
Proof.
  intros Hpos Hn Hf. unfold alloc_push, bind.
  destruct (num_allocs st >=? allocs_cap st) eqn:E; [|lia].
  assert (allocs_cap st ≠ 0) as Hc by lia.
  apply Z.eqb_neq in Hc. rewrite Hc. cbv zeta. unfold real_realloc.
  apply Z.eqb_neq in Hf as Hf'. rewrite Hf'. unfold ret.
  cbn [num_allocs set_allocs set_allocs_cap add_call].
  rewrite store_ok; [done|done|]. cbn. lia.
Qed.

Lemma memdebug_malloc_array_eq grow_cap n line file result fresh st :
  alloc_mutex st = false → result ≠ NULL →
  memdebug_malloc grow_cap n line file result fresh st =
  lift (alloc_push grow_cap (mkMemAlloc result n line file) fresh
          (set_mutex true (add_out (out_malloc n result file line)
                             (add_call (call_malloc n result) st))))
       (λ _ s, Returned result (set_mutex false s)).
Proof.
  intros Hm Hres. unfold memdebug_malloc, bind, real_malloc.
  apply Z.eqb_neq in Hres. rewrite Hres.
  unfold ret, when, PRINT_MEMALLOCS, printf, mutex_lock, mutex_unlock.
  cbn [alloc_mutex add_out add_call]. rewrite Hm. unfold lift.
  by destruct (alloc_push _ _ _ _).
Qed.

(** X13.  With room in the tracking array, an allocation the real
    [malloc] serves is appended behind the records already tracked; the
    array itself is not touched, and a search for the new address, if no
    older record holds it, finds it at the last index. *)
Theorem allocation_is_appended grow_cap st n line file result fresh :
  array_ok st → alloc_mutex st = false → num_allocs st < allocs_cap st →
  result ≠ NULL →
  ∃ st', memdebug_malloc grow_cap n line file result fresh st = Returned result st' ∧
         tracked st' = tracked st ++ [mkMemAlloc result n line file] ∧
         num_allocs st' = num_allocs st + 1 ∧
         array_ok st' ∧ alloc_mutex st' = false ∧
         allocs st' = allocs st ∧ allocs_cap st' = allocs_cap st ∧
         (result ∉ map ptr (tracked st) →
          alloc_find_index result st' = Returned (num_allocs st) st').
Proof.
  intros [Ha Hn Hc] Hm Hroom Hres.
  assert (wrap (num_allocs st + 1) = num_allocs st + 1) as Hw by (apply HashProofs.wrap_small; lia).
  eexists. split.
  { rewrite memdebug_malloc_array_eq by done.
    rewrite alloc_push_room by (cbn; done || lia). cbn [lift]. reflexivity. }
  cbn [num_allocs allocs allocs_cap alloc_mutex storage set_mutex set_num_allocs
       set_storage add_out add_call].
  assert (tracked
            (set_mutex false
               (set_num_allocs (wrap (num_allocs st + 1))
                  (set_storage (put (num_allocs st) (mkMemAlloc result n line file) (storage st))
                     (set_mutex true
                        (add_out (out_malloc n result file line)
                           (add_call (call_malloc n result) st))))))
          = tracked st ++ [mkMemAlloc result n line file]) as Htr.
  { apply tracked_push; cbn; [lia|done| |].
    - unfold put. by rewrite Z.eqb_refl.
    - intros j Hj. unfold put. destruct (j =? num_allocs st) eqn:E; [lia|done]. }
  split_and!; try done.
  - split; cbn; [done|lia|done].
  - intros Hfresh. apply alloc_find_index_found; cbn; [done|lia|lia| |].
    + unfold put. by rewrite Z.eqb_refl.
    + intros j Hj. unfold put. destruct (j =? num_allocs st) eqn:E; [lia|].
      apply (proj1 (tracked_absent st result (proj1 Hn)) Hfresh). lia.
Qed.


Lemma two_allocs_fields grow_cap :
  allocs (two_allocs grow_cap) = 4096 ∧
  num_allocs (two_allocs grow_cap) = 2 ∧
  allocs_cap (two_allocs grow_cap) = 5000 ∧
  alloc_mutex (two_allocs grow_cap) = false ∧
  storage (two_allocs grow_cap) 0 = mkMemAlloc 16 20 31 "test.c" ∧
  storage (two_allocs grow_cap) 1 = mkMemAlloc 48 25 32 "test.c".
Proof. vm_compute. repeat split. Qed.

Lemma two_allocs_ok grow_cap : array_ok (two_allocs grow_cap).
Proof.
  destruct (two_allocs_fields grow_cap) as (Ha & Hn & Hc & _).
  split; rewrite ?Ha, ?Hn, ?Hc; unfold NULL, SIZE_MODULUS; lia.
Qed.

Lemma two_allocs_tracked grow_cap :
  tracked (two_allocs grow_cap)
  = [mkMemAlloc 16 20 31 "test.c"; mkMemAlloc 48 25 32 "test.c"].
Proof.
  destruct (two_allocs_fields grow_cap) as (_ & Hn & _ & _ & H0 & H1).
  unfold tracked. rewrite Hn.
  assert (seq 0 (Z.to_nat 2) = [0%nat; 1%nat]) as -> by reflexivity.
  cbn [map]. change (Z.of_nat 0) with 0. change (Z.of_nat 1) with 1.
  by rewrite H0, H1.
Qed.

Lemma allocation_is_appended_witness :
  ∃ st', memdebug_malloc grow_exact 10 33 "test.c" 80 0 (two_allocs grow_exact)
           = Returned 80 st' ∧
         tracked st' = tracked (two_allocs grow_exact) ++ [mkMemAlloc 80 10 33 "test.c"] ∧
         num_allocs st' = num_allocs (two_allocs grow_exact) + 1 ∧
         array_ok st' ∧ alloc_mutex st' = false ∧
         allocs st' = allocs (two_allocs grow_exact) ∧
         allocs_cap st' = allocs_cap (two_allocs grow_exact) ∧
         (80 ∉ map ptr (tracked (two_allocs grow_exact)) →
          alloc_find_index 80 st' = Returned (num_allocs (two_allocs grow_exact)) st').
Proof.
  apply (allocation_is_appended grow_exact (two_allocs grow_exact) 10 33 "test.c" 80 0).
  - apply two_allocs_ok.
  - apply two_allocs_fields.
  - destruct (two_allocs_fields grow_exact) as (_ & -> & -> & _). lia.
  - unfold NULL. lia.
Defined.



Lemma full_fields :
  allocs full = 4096 ∧ num_allocs full = 5000 ∧ allocs_cap full = 5000 ∧
  alloc_mutex full = false.
Proof. repeat split. Qed.

Lemma full_ok : array_ok full.
Proof. split; cbn; unfold NULL, SIZE_MODULUS, MEMDEBUG_START_NUM_ALLOCS; lia. Qed.

(** X15.  When the array is full, the allocation first grows it: the real
    [realloc] is asked for [grow_cap allocs_cap] records, the block it
    returns becomes the array with that capacity, and the record is
    appended. *)
Theorem full_array_grows grow_cap st n line file result fresh :
  array_ok st → alloc_mutex st = false →
  0 < allocs_cap st → num_allocs st = allocs_cap st →
  allocs_cap st < grow_cap (allocs_cap st) < SIZE_MODULUS →
  result ≠ NULL → fresh ≠ NULL →
  ∃ st', memdebug_malloc grow_cap n line file result fresh st = Returned result st' ∧
         allocs st' = fresh ∧ allocs_cap st' = grow_cap (allocs_cap st) ∧
         tracked st' = tracked st ++ [mkMemAlloc result n line file] ∧
         heap_calls st' = heap_calls st ++
           [call_malloc n result;
            call_realloc (allocs st) (wrap (sizeof_MemAlloc * grow_cap (allocs_cap st))) fresh] ∧
         array_ok st' ∧ alloc_mutex st' = false.
Proof.
  intros [Ha Hn Hc] Hm Hpos Hfull Hgrow Hres Hf.
  assert (wrap (num_allocs st + 1) = num_allocs st + 1) as Hw by (apply HashProofs.wrap_small; lia).
  eexists. split.
  { rewrite memdebug_malloc_array_eq by done.
    rewrite alloc_push_grow by (cbn; done || lia). cbn [lift]. reflexivity. }
  cbn [num_allocs allocs allocs_cap alloc_mutex storage heap_calls set_mutex
       set_num_allocs set_storage set_allocs set_allocs_cap add_out add_call].
  split_and!; try done.
  - apply tracked_push; cbn; [lia|done| |].
    + unfold put. by rewrite Z.eqb_refl.
    + intros j Hj. unfold put. destruct (j =? num_allocs st) eqn:E; [lia|done].
  - by rewrite <- app_assoc.
  - split; cbn; [done|lia|lia].
Qed.

Lemma full_array_grows_witness :
  ∃ st', memdebug_malloc grow_exact 1 26 "test.c" 80016 8192 full = Returned 80016 st' ∧
         allocs st' = 8192 ∧ allocs_cap st' = grow_exact (allocs_cap full) ∧
         tracked st' = tracked full ++ [mkMemAlloc 80016 1 26 "test.c"] ∧
         heap_calls st' = heap_calls full ++
           [call_malloc 1 80016;
            call_realloc (allocs full)
                         (wrap (sizeof_MemAlloc * grow_exact (allocs_cap full))) 8192] ∧
         array_ok st' ∧ alloc_mutex st' = false.
Proof.
  apply (full_array_grows grow_exact full 1 26 "test.c" 80016 8192).
  - apply full_ok.
  - exact eq_refl.
  - cbn. unfold MEMDEBUG_START_NUM_ALLOCS. lia.
  - exact eq_refl.
  - vm_compute. split; reflexivity.
  - unfold NULL. lia.
  - unfold NULL. lia.
Defined.


(** ** The heap dump *)

Lemma print_heap_loop_spec fuel : ∀ i total l st,
  allocs st ≠ NULL → 0 <= i → i + Z.of_nat fuel <= allocs_cap st →
  print_heap_loop fuel i total (set_stdout l st) =
    Returned
      (fold_left (λ acc a, wrap (acc + size a))
                 (map (λ k, storage st (i + Z.of_nat k)) (seq 0 fuel)) total)
      (set_stdout (l ++ map heap_line (map (λ k, storage st (i + Z.of_nat k)) (seq 0 fuel))) st).
Proof.
  induction fuel as [|fuel IH]; intros i total l st Ha Hi Hcap.
  - cbn. by rewrite app_nil_r.
  - cbn [print_heap_loop]. unfold bind.
    rewrite load_ok by (cbn; done || lia). cbn [storage set_stdout].
    unfold printf.
    change (add_out ?o (set_stdout l st)) with (set_stdout (l ++ [o]) st).
    rewrite IH by (done || lia).
    assert (map (λ k, storage st (i + Z.of_nat k)) (seq 0 (S fuel))
            = storage st i :: map (λ k, storage st (i + 1 + Z.of_nat k)) (seq 0 fuel)) as ->.
    { cbn [seq map]. rewrite Z.add_0_r. f_equal.
      rewrite <- seq_shift, map_map. apply map_ext. intros k. f_equal. lia. }
    cbn [map fold_left]. rewrite <- app_assoc. reflexivity.
Qed.

Lemma print_heap_array_eq st :
  array_ok st ∨ num_allocs st = 0 →
  print_heap st =
    Returned tt
      (set_stdout (stdout st ++ [out_heap_banner] ++ map heap_line (tracked st)
                   ++ [out_heap_total (total_size (tracked st)) (num_allocs st)]) st).
Proof.
  intros Hok. unfold print_heap, bind, printf.
  change (add_out out_heap_banner st) with (set_stdout (stdout st ++ [out_heap_banner]) st).
  cbn [num_allocs set_stdout].
  assert (print_heap_loop (Z.to_nat (num_allocs st)) 0 0
            (set_stdout (stdout st ++ [out_heap_banner]) st)
          = Returned (total_size (tracked st))
              (set_stdout ((stdout st ++ [out_heap_banner]) ++ map heap_line (tracked st)) st))
    as ->.
  { destruct Hok as [[Ha Hn Hc]|Hz].
    - rewrite print_heap_loop_spec by (done || lia). reflexivity.
    - rewrite Hz. cbn. unfold tracked. rewrite Hz. cbn. by rewrite app_nil_r. }
  cbn [num_allocs set_stdout].
  change (add_out ?o (set_stdout ?l st)) with (set_stdout (l ++ [o]) st).
  by rewrite <- !app_assoc.
Qed.

(** X16.  [print_heap] prints the banner, one line per tracked record in
    the order of the array, and the closing line with the sum of the
    sizes (a [size_t]) and the number of records; it takes no lock and
    changes nothing else. *)
Theorem heap_dump_of_array st :
  array_ok st →
  print_heap st =
    Returned tt
      (set_stdout (stdout st ++ [out_heap_banner] ++ map heap_line (tracked st)
                   ++ [out_heap_total (total_size (tracked st)) (num_allocs st)]) st).
Proof. intros Hok. apply print_heap_array_eq. by left. Qed.

Lemma heap_dump_of_array_witness :
  print_heap (two_allocs grow_exact) =
    Returned tt
      (set_stdout (stdout (two_allocs grow_exact) ++ [out_heap_banner]
                   ++ map heap_line (tracked (two_allocs grow_exact))
                   ++ [out_heap_total (total_size (tracked (two_allocs grow_exact)))
                                      (num_allocs (two_allocs grow_exact))])
                  (two_allocs grow_exact)).
Proof. apply (heap_dump_of_array (two_allocs grow_exact)). apply two_allocs_ok. Defined.

Lemma OOM_array_eq {A} line file n st :
  array_ok st ∨ num_allocs st = 0 →
  OOM (A:=A) line file n st =
    Exited OOM_EXIT_STATUS
      (set_stdout (stdout st ++ [out_oom line file n; out_heap_banner]
                   ++ map heap_line (tracked st)
                   ++ [out_heap_total (total_size (tracked st)) (num_allocs st)]) st).
Proof.
  intros Hok. unfold OOM, bind, printf.
  rewrite print_heap_array_eq.
  - unfold exit. cbn [stdout add_out]. f_equal.
    change (tracked (add_out (out_oom line file n) st)) with (tracked st).
    unfold set_stdout. cbn [allocs storage num_allocs allocs_cap alloc_mutex heap_calls add_out].
    by rewrite <- !app_assoc.
  - destruct Hok as [[Ha Hn Hc]|Hz]; [left; by split|by right].
Qed.

(** X17.  When the real [malloc] returns null, the array version prints
    the out-of-memory line and the dump of the tracked records and ends
    the process with [OOM_EXIT_STATUS]; the records are as before. *)
Theorem array_allocate_out_of_memory grow_cap st n line file fresh :
  array_ok st →
  ∃ st', memdebug_malloc grow_cap n line file NULL fresh st = Exited OOM_EXIT_STATUS st' ∧
         stdout st' = stdout st ++ [out_oom line file n; out_heap_banner]
                      ++ map heap_line (tracked st)
                      ++ [out_heap_total (total_size (tracked st)) (num_allocs st)] ∧
         tracked st' = tracked st.
Proof.
  intros Hok. unfold memdebug_malloc, bind, real_malloc.
  change (NULL =? NULL) with true. cbv iota.
  rewrite OOM_array_eq by (left; destruct Hok; by split).
  eexists. split; [reflexivity|]. split; reflexivity.
Qed.

Lemma array_allocate_out_of_memory_witness :
  ∃ st', memdebug_malloc grow_exact 16 36 "test.c" NULL 0 (two_allocs grow_exact)
           = Exited OOM_EXIT_STATUS st' ∧
         stdout st' = stdout (two_allocs grow_exact)
                      ++ [out_oom 36 "test.c" 16; out_heap_banner]
                      ++ map heap_line (tracked (two_allocs grow_exact))
                      ++ [out_heap_total (total_size (tracked (two_allocs grow_exact)))
                                         (num_allocs (two_allocs grow_exact))] ∧
         tracked st' = tracked (two_allocs grow_exact).
Proof.
  apply (array_allocate_out_of_memory grow_exact (two_allocs grow_exact) 16 36 "test.c" 0).
  apply two_allocs_ok.
Defined.

(** X18.  When the array is full and the real [realloc] cannot grow it,
    the allocation ends in the out-of-memory exit: the line of the call,
    the notice that tracking storage could not be had, the out-of-memory
    line for [alloc_push] and the dump are printed, and the process
    exits with [OOM_EXIT_STATUS]. *)
Theorem growth_failure_is_fatal grow_cap st n line file result :
  array_ok st → alloc_mutex st = false →
  0 < allocs_cap st → num_allocs st = allocs_cap st → result ≠ NULL →
  ∃ st', memdebug_malloc grow_cap n line file result NULL st
           = Exited OOM_EXIT_STATUS st' ∧
         stdout st' = stdout st
           ++ [out_malloc n result file line; out_track_failed;
               out_oom 153 "memdebug.h" (wrap (sizeof_MemAlloc * grow_cap (allocs_cap st)));
               out_heap_banner]
           ++ map heap_line (tracked st)
           ++ [out_heap_total (total_size (tracked st)) (num_allocs st)] ∧
         tracked st' = tracked st.
Proof.
  intros [Ha Hn Hc] Hm Hpos Hfull Hres.
  rewrite memdebug_malloc_array_eq by done.
  unfold alloc_push, bind.
  cbn [num_allocs allocs allocs_cap set_mutex add_out add_call].
  destruct (num_allocs st >=? allocs_cap st) eqn:E; [|lia].
  assert (allocs_cap st ≠ 0) as Hnz by lia. apply Z.eqb_neq in Hnz. rewrite Hnz.
  cbv zeta. unfold real_realloc. change (NULL =? NULL) with true. cbv iota.
  unfold printf. rewrite OOM_array_eq by (left; split; cbn; done).
  cbn [lift]. eexists. split; [reflexivity|]. split; [|reflexivity].
  cbn [stdout set_stdout add_out add_call set_mutex].
  rewrite <- !app_assoc. reflexivity.
Qed.

Lemma growth_failure_is_fatal_witness :
  ∃ st', memdebug_malloc grow_exact 1 26 "test.c" 80016 NULL full
           = Exited OOM_EXIT_STATUS st' ∧
         stdout st' = stdout full
           ++ [out_malloc 1 80016 "test.c" 26; out_track_failed;
               out_oom 153 "memdebug.h" (wrap (sizeof_MemAlloc * grow_exact (allocs_cap full)));
               out_heap_banner]
           ++ map heap_line (tracked full)
           ++ [out_heap_total (total_size (tracked full)) (num_allocs full)] ∧
         tracked st' = tracked full.
Proof.
  apply (growth_failure_is_fatal grow_exact full 1 26 "test.c" 80016).
  - apply full_ok.
  - exact eq_refl.
  - cbn. unfold MEMDEBUG_START_NUM_ALLOCS. lia.
  - exact eq_refl.
  - unfold NULL. lia.
Defined.


(** ** Release *)

(** The shifting loop moves every record of its range one place down. *)
Lemma alloc_remove_loop_spec fuel : ∀ index f st,
  allocs st ≠ NULL → 0 <= index → index + Z.of_nat fuel < allocs_cap st →
  ∃ f', alloc_remove_loop fuel index (set_storage f st) = Returned tt (set_storage f' st) ∧
        ∀ j, f' j = if decide (index <= j < index + Z.of_nat fuel) then f (j + 1) else f j.
Proof.
  induction fuel as [|fuel IH]; intros index f st Ha Hi Hcap.
  - exists f. split; [done|]. intros j. destruct (decide _); [lia|done].
  - cbn [alloc_remove_loop]. unfold bind.
    rewrite load_ok by (cbn; done || lia). cbn [storage set_storage].
    rewrite store_ok by (cbn; done || lia). cbn [storage set_storage].
    change (set_storage ?g (set_storage f st)) with (set_storage g st).
    destruct (IH (index + 1) (put index (f (index + 1)) f) st Ha) as (f' & -> & Hf'); [lia..|].
    exists f'. split; [done|]. intros j. rewrite Hf'. unfold put.
    destruct (decide (index + 1 <= j < index + 1 + Z.of_nat fuel)) as [H1|H1].
    + destruct (j + 1 =? index) eqn:E; [lia|]. destruct (decide _); [done|lia].
    + destruct (j =? index) eqn:E.
      * apply Z.eqb_eq in E as ->. destruct (decide _); [done|lia].
      * apply Z.eqb_neq in E. destruct (decide _); [lia|done].
Qed.

Lemma tracked_delete st st' k :
  0 <= k < num_allocs st →
  num_allocs st' = num_allocs st - 1 →
  (∀ j, storage st' j = if decide (k <= j < num_allocs st - 1)
                        then storage st (j + 1) else storage st j) →
  tracked st' = delete (Z.to_nat k) (tracked st).
Proof.
  intros Hk Hn Hs. apply list_eq. intros i.
  destruct (decide (i < Z.to_nat k)%nat) as [Hlt|Hge].
  - rewrite list_lookup_delete_lt by done.
    rewrite !tracked_lookup by lia. rewrite Hs. destruct (decide _); [lia|done].
  - rewrite list_lookup_delete_ge by lia.
    destruct (decide (i < Z.to_nat (num_allocs st'))%nat) as [Hi|Hi].
    + rewrite !tracked_lookup by lia. rewrite Hs.
      destruct (decide _); [|lia]. do 2 f_equal. lia.
    + rewrite !tracked_lookup_ge by lia. done.
Qed.

Lemma release_array_spec st p k line file :
  array_ok st → alloc_mutex st = false →
  0 <= k < num_allocs st → k ≠ MEM_FAIL_TO_FIND →
  ptr (storage st k) = p → (∀ j, 0 <= j < k → ptr (storage st j) ≠ p) →
  ∃ st', memdebug_free p line file st = Returned tt st' ∧
         tracked st' = delete (Z.to_nat k) (tracked st) ∧
         num_allocs st' = num_allocs st - 1 ∧
         heap_calls st' = heap_calls st ++ [call_free p] ∧
         stdout st' = stdout st ++ [out_free p file line] ∧
         allocs st' = allocs st ∧ allocs_cap st' = allocs_cap st ∧
         alloc_mutex st' = false.
Proof.
  intros [Ha Hn Hc] Hm Hk Hne Hp Hno.
  assert (alloc_find_index p (set_mutex true st) = Returned k (set_mutex true st)) as Hfind.
  { apply alloc_find_index_found; [done|exact (proj2 Hn)|done..]. }
  assert (wrap (num_allocs st - 1) = num_allocs st - 1) as Hw
    by (apply HashProofs.wrap_small; lia).
  rewrite memdebug_free_array_eq, Hfind by done. cbn [lift].
  apply Z.eqb_neq in Hne. rewrite Hne, andb_false_r.
  unfold alloc_remove, bind.
  cbn [num_allocs set_num_allocs add_out add_call set_mutex]. rewrite Hw.
  set (st1 := set_num_allocs _ _).
  change st1 with (set_storage (storage st) st1).
  destruct (alloc_remove_loop_spec (Z.to_nat (num_allocs st - 1 - k)) k (storage st) st1)
    as (f' & -> & Hf'); [done|lia|cbn; lia|].
  cbn [lift]. eexists. split; [reflexivity|].
  cbn [num_allocs allocs allocs_cap alloc_mutex heap_calls stdout storage st1 set_mutex
       set_num_allocs set_storage add_out add_call].
  split_and!; try done.
  apply tracked_delete; cbn; [done|done|].
  intros j. rewrite Hf'.
  destruct (decide (k <= j < k + Z.of_nat (Z.to_nat (num_allocs st - 1 - k))));
    destruct (decide (k <= j < num_allocs st - 1)); try done; lia.
Qed.

(** X19.  Releasing a tracked address takes its record out of the array
    and moves the later records one place down, keeping their order; the
    count goes down by one and the address is handed to the real
    [free]. *)
Theorem release_shifts_the_rest st p k line file :
  array_ok st → alloc_mutex st = false →
  0 <= k < num_allocs st → k ≠ MEM_FAIL_TO_FIND →
  ptr (storage st k) = p → (∀ j, 0 <= j < k → ptr (storage st j) ≠ p) →
  ∃ st', memdebug_free p line file st = Returned tt st' ∧
         tracked st' = delete (Z.to_nat k) (tracked st) ∧
         num_allocs st' = num_allocs st - 1 ∧
         heap_calls st' = heap_calls st ++ [call_free p] ∧
         stdout st' = stdout st ++ [out_free p file line] ∧
         allocs st' = allocs st ∧ allocs_cap st' = allocs_cap st ∧
         alloc_mutex st' = false.
Proof. apply release_array_spec. Qed.

Lemma release_shifts_the_rest_witness :
  ∃ st', memdebug_free 16 33 "test.c" (two_allocs grow_exact) = Returned tt st' ∧
         tracked st' = delete (Z.to_nat 0) (tracked (two_allocs grow_exact)) ∧
         num_allocs st' = num_allocs (two_allocs grow_exact) - 1 ∧
         heap_calls st' = heap_calls (two_allocs grow_exact) ++ [call_free 16] ∧
         stdout st' = stdout (two_allocs grow_exact) ++ [out_free 16 "test.c" 33] ∧
         allocs st' = allocs (two_allocs grow_exact) ∧
         allocs_cap st' = allocs_cap (two_allocs grow_exact) ∧
         alloc_mutex st' = false.
Proof.
  destruct (two_allocs_fields grow_exact) as (_ & Hn & _ & Hm & H0 & _).
  apply (release_shifts_the_rest (two_allocs grow_exact) 16 0 33 "test.c").
  - apply two_allocs_ok.
  - exact Hm.
  - rewrite Hn. lia.
  - unfold MEM_FAIL_TO_FIND. lia.
  - rewrite H0. reflexivity.
  - intros j Hj. lia.
Defined.


(** X20.  After the release of an address that was tracked once, the
    address is unknown again: a second [free], or a [realloc] of it, ends
    the process with [MEMPANIC_EXIT_STATUS]. *)
Theorem array_double_free_is_detected st p k n line file result :
  array_ok st → alloc_mutex st = false →
  0 <= k < num_allocs st → k ≠ MEM_FAIL_TO_FIND → p ≠ NULL →
  ptr (storage st k) = p →
  (∀ j, 0 <= j < num_allocs st → j ≠ k → ptr (storage st j) ≠ p) →
  ∃ st', memdebug_free p line file st = Returned tt st' ∧
         ending_of (memdebug_free p line file st') = Exits MEMPANIC_EXIT_STATUS ∧
         ending_of (memdebug_realloc p n line file result st') = Exits MEMPANIC_EXIT_STATUS.
Proof.
  intros Hok Hm Hk Hne Hp Hat Honly.
  destruct (release_array_spec st p k line file Hok Hm Hk Hne Hat)
    as (st' & Hst & Htr & Hn & _ & _ & Ha & Hc & Hm').
  { intros j Hj. apply Honly; lia. }
  destruct Hok as [Hal Hcount Hcap].
  assert (p ∉ map ptr (tracked st')) as Hgone.
  { rewrite Htr. intros Hin. apply list_elem_of_fmap in Hin as (r & Hr & Hin).
    apply list_elem_of_lookup in Hin as [i Hi].
    pose proof (lookup_lt_Some _ _ _ Hi) as Hlen.
    rewrite length_delete, tracked_length in Hlen
      by (rewrite tracked_lookup by lia; done).
    destruct (decide (i < Z.to_nat k)%nat) as [Hlt|Hge].
    - rewrite list_lookup_delete_lt, tracked_lookup in Hi by lia. injection Hi as <-.
      apply (Honly (Z.of_nat i)); [lia|lia|done].
    - rewrite list_lookup_delete_ge, tracked_lookup in Hi by lia. injection Hi as <-.
      apply (Honly (Z.of_nat (S i))); [lia|lia|done]. }
  assert (0 <= num_allocs st') as Hn0 by lia.
  pose proof (proj1 (tracked_absent st' p Hn0) Hgone) as Hall.
  destruct (invalid_pointer_fault_array p n line file result st' Hm' Hp) as [Hf Hr];
    [right; rewrite Ha, Hc, Hn; split; [done|lia]|done|].
  exists st'. rewrite Hf, Hr. done.
Qed.

Lemma array_double_free_is_detected_witness :
  ∃ st', memdebug_free 48 33 "test.c" (two_allocs grow_exact) = Returned tt st' ∧
         ending_of (memdebug_free 48 33 "test.c" st') = Exits MEMPANIC_EXIT_STATUS ∧
         ending_of (memdebug_realloc 48 10 33 "test.c" 80 st') = Exits MEMPANIC_EXIT_STATUS.
Proof.
  destruct (two_allocs_fields grow_exact) as (_ & Hn & _ & Hm & H0 & H1).
  apply (array_double_free_is_detected (two_allocs grow_exact) 48 1 10 33 "test.c" 80).
  - apply two_allocs_ok.
  - exact Hm.
  - rewrite Hn. lia.
  - unfold MEM_FAIL_TO_FIND. lia.
  - unfold NULL. lia.
  - rewrite H1. reflexivity.
  - rewrite Hn. intros j Hj Hne. assert (j = 0) as -> by lia. rewrite H0. cbn. lia.
Defined.

(** ** Resize *)

(** X21.  Resizing a tracked address that is first found at an index
    other than 4294967295 rewrites its record in place: the record at
    that index now holds the address the real [realloc] returned, the new
    size and the call site; the other records, their order and the count
    are as before. *)
Theorem resize_updates_in_place st p k n line file result :
  array_ok st → alloc_mutex st = false →
  0 <= k < num_allocs st → k ≠ MEM_FAIL_TO_FIND →
  ptr (storage st k) = p → (∀ j, 0 <= j < k → ptr (storage st j) ≠ p) →
  result ≠ NULL →
  ∃ st', memdebug_realloc p n line file result st = Returned result st' ∧
         tracked st' = <[Z.to_nat k := mkMemAlloc result n line file]> (tracked st) ∧
         num_allocs st' = num_allocs st.
Proof.
  intros [Ha Hn Hc] Hm Hk Hne Hp Hno Hres.
  destruct (resize_live_address_array st p k n line file result Hm Ha Hn Hk Hne Hp Hno Hres)
    as (st' & Hst & Hn' & Hsk & Hso).
  exists st'. split_and!; [done| |done].
  apply list_eq. intros i.
  destruct (decide (i = Z.to_nat k)) as [->|Hik].
  - rewrite list_lookup_insert_eq by (rewrite tracked_length; lia).
    rewrite tracked_lookup by lia. f_equal. rewrite <- Hsk. f_equal. lia.
  - rewrite list_lookup_insert_ne by done.
    destruct (decide (i < Z.to_nat (num_allocs st))%nat) as [Hi|Hi].
    + rewrite !tracked_lookup by lia. f_equal. apply Hso. lia.
    + rewrite !tracked_lookup_ge by lia. done.
Qed.

Lemma resize_updates_in_place_witness :
  ∃ st', memdebug_realloc 48 10 33 "test.c" 80 (two_allocs grow_exact) = Returned 80 st' ∧
         tracked st' = <[Z.to_nat 1 := mkMemAlloc 80 10 33 "test.c"]>
                         (tracked (two_allocs grow_exact)) ∧
         num_allocs st' = num_allocs (two_allocs grow_exact).
Proof.
  destruct (two_allocs_fields grow_exact) as (_ & Hn & _ & Hm & H0 & H1).
  apply (resize_updates_in_place (two_allocs grow_exact) 48 1 10 33 "test.c" 80).
  - apply two_allocs_ok.
  - exact Hm.
  - rewrite Hn. lia.
  - unfold MEM_FAIL_TO_FIND. lia.
  - rewrite H1. reflexivity.
  - intros j Hj. assert (j = 0) as -> by lia. rewrite H0. cbn. lia.
  - unfold NULL. lia.
Defined.

(** X22.  When the real [realloc] returns null for a tracked address
    that is first found at an index other than 4294967295, the array
    version prints the out-of-memory line and the dump, in which the
    record of that address is still listed, and ends the process with
    [OOM_EXIT_STATUS]. *)
Theorem array_resize_out_of_memory st p k n line file :
  array_ok st → alloc_mutex st = false →
  0 <= k < num_allocs st → k ≠ MEM_FAIL_TO_FIND →
  ptr (storage st k) = p → (∀ j, 0 <= j < k → ptr (storage st j) ≠ p) →
  ∃ st', memdebug_realloc p n line file NULL st = Exited OOM_EXIT_STATUS st' ∧
         stdout st' = stdout st ++ [out_oom line file n; out_heap_banner]
                      ++ map heap_line (tracked st)
                      ++ [out_heap_total (total_size (tracked st)) (num_allocs st)] ∧
         tracked st' = tracked st.
Proof.
  intros [Ha Hn Hc] Hm Hk Hne Hp Hno.
  assert (alloc_find_index p (set_mutex true st) = Returned k (set_mutex true st)) as Hfind.
  { apply alloc_find_index_found; [done|exact (proj2 Hn)|done..]. }
  unfold memdebug_realloc, bind, mutex_lock. rewrite Hm, Hfind.
  apply Z.eqb_neq in Hne. rewrite Hne, andb_false_r.
  unfold ret, real_realloc. change (NULL =? NULL) with true. cbv iota.
  rewrite OOM_array_eq by (left; split; cbn; done).
  eexists. split; [reflexivity|]. split; reflexivity.
Qed.

Lemma array_resize_out_of_memory_witness :
  ∃ st', memdebug_realloc 48 10 33 "test.c" NULL (two_allocs grow_exact)
           = Exited OOM_EXIT_STATUS st' ∧
         stdout st' = stdout (two_allocs grow_exact)
                      ++ [out_oom 33 "test.c" 10; out_heap_banner]
                      ++ map heap_line (tracked (two_allocs grow_exact))
                      ++ [out_heap_total (total_size (tracked (two_allocs grow_exact)))
                                         (num_allocs (two_allocs grow_exact))] ∧
         tracked st' = tracked (two_allocs grow_exact).
Proof.
  destruct (two_allocs_fields grow_exact) as (_ & Hn & _ & Hm & H0 & H1).
  apply (array_resize_out_of_memory (two_allocs grow_exact) 48 1 10 33 "test.c").
  - apply two_allocs_ok.
  - exact Hm.
  - rewrite Hn. lia.
  - unfold MEM_FAIL_TO_FIND. lia.
  - rewrite H1. reflexivity.
  - intros j Hj. assert (j = 0) as -> by lia. rewrite H0. cbn. lia.
Defined.

(** ** Unknown addresses *)

(** X23.  A non-null address that no tracked record holds is refused by
    the array version: [free] and [realloc] print the panic line with
    the address and the call site and end the process with
    [MEMPANIC_EXIT_STATUS]; nothing is handed to the real allocator. *)
Theorem array_invalid_pointer_fault st p n line file result :
  array_ok st → alloc_mutex st = false → p ≠ NULL →
  p ∉ map ptr (tracked st) →
  memdebug_free p line file st =
    Exited MEMPANIC_EXIT_STATUS
      (add_out (out_panic "Tried to free() an invalid pointer." p line file)
               (set_mutex true st)) ∧
  memdebug_realloc p n line file result st =
    Exited MEMPANIC_EXIT_STATUS
      (add_out (out_panic "Tried to realloc() an invalid pointer." p line file)
               (set_mutex true st)).
Proof.
  intros [Ha Hn Hc] Hm Hp Hno.
  apply invalid_pointer_fault_array; [done|done|by right|].
  exact (proj1 (tracked_absent st p (proj1 Hn)) Hno).
Qed.

Lemma array_invalid_pointer_fault_witness :
  memdebug_free 1 34 "test.c" (two_allocs grow_exact) =
    Exited MEMPANIC_EXIT_STATUS
      (add_out (out_panic "Tried to free() an invalid pointer." 1 34 "test.c")
               (set_mutex true (two_allocs grow_exact))) ∧
  memdebug_realloc 1 10 34 "test.c" 80 (two_allocs grow_exact) =
    Exited MEMPANIC_EXIT_STATUS
      (add_out (out_panic "Tried to realloc() an invalid pointer." 1 34 "test.c")
               (set_mutex true (two_allocs grow_exact))).
Proof.
  apply (array_invalid_pointer_fault (two_allocs grow_exact) 1 10 34 "test.c" 80).
  - apply two_allocs_ok.
  - apply two_allocs_fields.
  - unfold NULL. lia.
  - rewrite two_allocs_tracked. cbn. intros Hin.
    apply elem_of_cons in Hin as [Hin|Hin]; [lia|].
    apply list_elem_of_singleton in Hin. lia.
Defined.

End ArrMore.
